(** * Autofill backend: answer normalisation and the /predict flow

    A shallow embedding of [ai_service.py] (intent normaliser, forbidden-answer
    detector, answer repairer, option matcher, predictor) and of the [predict]
    endpoint of [app.py], with the properties the specification states about
    them.

    Conventions of the embedding.
    - Python [str] is [string], the UTF-8 bytes of the text.  [lower], [strip]
      and the character classes are [str.lower], [str.strip] and the classes
      of [re] on ASCII text: every byte outside the ASCII range is left as it
      is.  The module [Runtime] holds the string-sensitive functions once
      more with the two methods as parameters, for what is stated about text
      in any script.
    - Python [float] is [pyfloat]: a rational, an infinity or NaN.  The code
      only compares and selects floats, it never computes with them.
    - Values decoded from JSON, and the dictionaries handed back by the
      pattern store, are [json] trees; a dictionary is an association list
      read by key.
    - Exceptions are the [Raise] case of [result]; code that talks to the
      inference service or to the pattern store runs in the monad [M], which
      threads a [World]: the store and the log of the external calls made. *)

From Stdlib Require Import QArith Ascii String.
From stdpp Require Import base option list strings gmap.

Local Open Scope string_scope.

(** ** Python string primitives *)

Definition is_upper (c : ascii) : bool :=
  let n := nat_of_ascii c in (65 <=? n)%nat && (n <=? 90)%nat.

(** The whitespace of [str.strip] and [str.isspace] in the ASCII range:
    tab to carriage return, the four separators, the space. *)
Definition is_space (c : ascii) : bool :=
  let n := nat_of_ascii c in
  ((9 <=? n)%nat && (n <=? 13)%nat) || ((28 <=? n)%nat && (n <=? 32)%nat).

Definition is_word (c : ascii) : bool :=
  let n := nat_of_ascii c in
  ((48 <=? n)%nat && (n <=? 57)%nat) || ((65 <=? n)%nat && (n <=? 90)%nat)
  || ((97 <=? n)%nat && (n <=? 122)%nat) || (n =? 95)%nat.

Definition lower_char (c : ascii) : ascii :=
  if is_upper c then ascii_of_nat (nat_of_ascii c + 32) else c.

(** [s.lower()], on ASCII letters. *)
Fixpoint lower (s : string) : string :=
  match s with
  | EmptyString => EmptyString
  | String c s' => String (lower_char c) (lower s')
  end.

(** [s.lstrip()] *)
Fixpoint lstrip (s : string) : string :=
  match s with
  | EmptyString => EmptyString
  | String c s' => if is_space c then lstrip s' else s
  end.

(** [s.rstrip()]: a character goes when it is a space and all that follows
    it went too. *)
Fixpoint rstrip (s : string) : string :=
  match s with
  | EmptyString => EmptyString
  | String c s' =>
      match rstrip s' with
      | EmptyString => if is_space c then EmptyString else String c EmptyString
      | t => String c t
      end
  end.

(** [s.strip()], of ASCII whitespace. *)
Definition strip (s : string) : string := rstrip (lstrip s).

(** [s.replace(old, "")] for a one-character [old]. *)
Fixpoint remove_char (old : ascii) (s : string) : string :=
  match s with
  | EmptyString => EmptyString
  | String c s' =>
      if Ascii.eqb c old then remove_char old s' else String c (remove_char old s')
  end.

(** [sub in s] on strings. *)
Fixpoint contains (sub s : string) : bool :=
  String.prefix sub s
  || match s with
     | EmptyString => false
     | String _ s' => contains sub s'
     end.

(** [x in l] on a list of strings. *)
Definition str_in (x : string) (l : list string) : bool :=
  existsb (String.eqb x) l.

(** Truth value of a string: [bool(s)]. *)
Definition truthy_str (s : string) : bool :=
  match s with EmptyString => false | _ => true end.

(** ** The [re] fragment the detector uses

    Patterns are kept as the source writes them and compiled by [re_compile]:
    a backslash escapes the next character, [\b] is the word boundary, a
    question mark makes the preceding literal optional. *)

Inductive re_token := TLit (c : ascii) | TBoundary | TQuestion.

Inductive re_atom := AChar (c : ascii) | AOpt (c : ascii) | ABoundary.

Fixpoint re_tokens (p : string) : list re_token :=
  match p with
  | EmptyString => []
  | String c rest =>
      if Ascii.eqb c "\"%char then
        match rest with
        | EmptyString => []
        | String e rest' =>
            (if Ascii.eqb e "b"%char then TBoundary else TLit e) :: re_tokens rest'
        end
      else if Ascii.eqb c "?"%char then TQuestion :: re_tokens rest
      else TLit c :: re_tokens rest
  end.

Fixpoint re_atoms (ts : list re_token) : list re_atom :=
  match ts with
  | [] => []
  | TLit c :: rest =>
      match rest with
      | TQuestion :: rest' => AOpt c :: re_atoms rest'
      | _ => AChar c :: re_atoms rest
      end
  | TBoundary :: rest => ABoundary :: re_atoms rest
  | TQuestion :: rest => re_atoms rest
  end.

Definition re_compile (p : string) : list re_atom := re_atoms (re_tokens p).

(** Under [re.IGNORECASE] a literal matches in either case. *)
Definition char_matches (p c : ascii) : bool :=
  Ascii.eqb (lower_char p) (lower_char c).

Definition word_before (prev : option ascii) : bool :=
  match prev with Some c => is_word c | None => false end.

Definition word_after (s : string) : bool :=
  match s with String c _ => is_word c | EmptyString => false end.

(** Does the pattern match at this position?  [prev] is the character just
    before it. *)
Fixpoint re_match_here (r : list re_atom) (prev : option ascii) (s : string) : bool :=
  match r with
  | [] => true
  | AChar p :: r' =>
      match s with
      | String c s' => char_matches p c && re_match_here r' (Some c) s'
      | EmptyString => false
      end
  | AOpt p :: r' =>
      match s with
      | String c s' => char_matches p c && re_match_here r' (Some c) s'
      | EmptyString => false
      end
      || re_match_here r' prev s
  | ABoundary :: r' =>
      negb (Bool.eqb (word_before prev) (word_after s)) && re_match_here r' prev s
  end.

Fixpoint re_search_from (r : list re_atom) (prev : option ascii) (s : string) : bool :=
  re_match_here r prev s
  || match s with
     | EmptyString => false
     | String c s' => re_search_from r (Some c) s'
     end.

(** [re.search(pat, s, flags=re.IGNORECASE)], as a truth value. *)
Definition re_search (pat s : string) : bool :=
  re_search_from (re_compile pat) None s.

(** ** Intent policy *)

Definition ALLOWED_INTENTS : gset string :=
  {[ "personal.firstName"; "personal.lastName"; "personal.email";
     "personal.phone"; "personal.linkedin"; "personal.city";
     "personal.state"; "personal.country";
     "personal.desiredSalary"; "personal.additionalInfo";
     "experience.whyFit"; "experience.summary";
     "workAuthorization.authorizedUS"; "workAuthorization.needsSponsorship";
     "eeo.gender"; "eeo.race"; "eeo.veteran"; "eeo.disability";
     "unknown" ]}.

Definition INTENT_NORMALIZATION : gmap string string :=
  list_to_map
    [ ("experience", "experience.summary");
      ("why_fit", "experience.whyFit");
      ("whyfit", "experience.whyFit");
      ("personal.additionalinfo", "personal.additionalInfo");
      ("additionalinfo", "personal.additionalInfo");
      ("salary", "personal.desiredSalary");
      ("personal.salary", "personal.desiredSalary");
      ("personal.desiredsalary", "personal.desiredSalary") ].

Definition FORBIDDEN_ANSWER_PATTERNS : list string :=
  [ "\\bnot provided\\b";
    "\\bi don't know\\b";
    "\\bdo not know\\b";
    "\\bn/?a\\b";
    "\\bfree text input\\b";
    "\\bno additional information\\b";
    "\\bnothing to add\\b";
    "\\bnot sure\\b" ].

(** [_normalize_intent(intent, question)]; [None] is the absent intent. *)
Definition _normalize_intent (intent : option string) (question : string) : string :=
  let intent := match intent with
                | Some i => if truthy_str i then i else ""
                | None => ""
                end in
  let raw := strip intent in
  let key := remove_char "_" (remove_char "-" (remove_char " " (lower raw))) in
  if bool_decide (raw ∈ ALLOWED_INTENTS) then raw
  else
    match INTENT_NORMALIZATION !! key with
    | Some canonical => canonical
    | None =>
        let q := lower question in
        if contains "salary" q || contains "compensation" q || contains "pay" q
        then "personal.desiredSalary"
        else if contains "anything else" q || contains "additional" q
                || contains "know about you" q
        then "personal.additionalInfo"
        else if contains "strong fit" q || contains "why you" q
                || contains "why should we hire" q
        then "experience.whyFit"
        else "unknown"
    end.

(** [_is_forbidden_answer(ans)] *)
Definition _is_forbidden_answer (ans : string) : bool :=
  let s := lower (strip ans) in
  if negb (truthy_str s) then true
  else existsb (fun pat => re_search pat s) FORBIDDEN_ANSWER_PATTERNS.

Definition pref : list string :=
  [ "Prefer not to say"; "Decline to answer"; "Decline to state";
    "Prefer not to disclose" ].

(** The test of the inner loop of [_repair_answer]. *)
Definition pref_matches (p opt : string) : bool :=
  String.eqb (lower (strip opt)) (lower p).

(** The two nested loops of [_repair_answer]: preferences outside, options
    inside, leaving at the first hit. *)
Fixpoint first_preferred (ps options : list string) : option string :=
  match ps with
  | [] => None
  | p :: ps' =>
      match List.find (pref_matches p) options with
      | Some opt => Some opt
      | None => first_preferred ps' options
      end
  end.

Definition SALARY_FALLBACK : string :=
  "Open to a competitive salary aligned with the role scope, market standards, and total compensation.".

Definition ADDITIONAL_FALLBACK : string :=
  "I’m genuinely excited about this opportunity and would welcome the chance to discuss how I can "
  +:+ "contribute. I’m quick to learn, dependable, and committed to delivering high-quality work.".

Definition WHYFIT_FALLBACK : string :=
  "I’m a strong fit because I bring consistent execution, clear communication, and a practical mindset. "
  +:+ "I focus on understanding requirements quickly, delivering reliable outcomes, and collaborating well "
  +:+ "with teams to move work forward efficiently.".

Definition GENERIC_FALLBACK : string :=
  "I’m excited about this role and confident I can add value through strong ownership, adaptability, and "
  +:+ "a results-driven approach. I’m ready to contribute from day one.".

(** [_repair_answer(question, options, intent)].  [options] is [None] when
    the request carries no list; an empty list is as false as [None]. *)
Definition _repair_answer (question : string) (options : option (list string))
    (intent : string) : string :=
  let q := lower question in
  match options with
  | Some (first :: rest) =>
      match first_preferred pref (first :: rest) with
      | Some opt => opt
      | None => first
      end
  | _ =>
      if String.eqb intent "personal.desiredSalary" || contains "salary" q
         || contains "compensation" q
      then SALARY_FALLBACK
      else if String.eqb intent "personal.additionalInfo"
              || contains "anything else" q || contains "additional" q
      then ADDITIONAL_FALLBACK
      else if String.eqb intent "experience.whyFit" || contains "strong fit" q
              || contains "why should" q
      then WHYFIT_FALLBACK
      else GENERIC_FALLBACK
  end.

(** ** Floats, JSON values and exceptions *)

Inductive pyfloat :=
| FNum (q : Q)
| FInf (negative : bool)
| FNaN.

(** [a < b] on floats; every comparison with NaN is false. *)
Definition flt (a b : pyfloat) : bool :=
  match a, b with
  | FNaN, _ | _, FNaN => false
  | FNum x, FNum y => negb (Qle_bool y x)
  | FNum _, FInf negative => negb negative
  | FInf negative, FNum _ => negative
  | FInf na, FInf nb => na && negb nb
  end.

(** [a >= b] on floats. *)
Definition fge (a b : pyfloat) : bool :=
  match a, b with
  | FNaN, _ | _, FNaN => false
  | FInf na, FInf nb => negb na || nb
  | _, _ => negb (flt a b)
  end.

(** [min(a, b)] keeps its first argument unless the second is smaller. *)
Definition py_min (a b : pyfloat) : pyfloat := if flt b a then b else a.

(** [max(a, b)] keeps its first argument unless the second is greater. *)
Definition py_max (a b : pyfloat) : pyfloat := if flt a b then b else a.

Definition f070 : pyfloat := FNum 0.70.
Definition f075 : pyfloat := FNum 0.75.
Definition f078 : pyfloat := FNum 0.78.
Definition f099 : pyfloat := FNum 0.99.
Definition f000 : pyfloat := FNum 0.0.

(** [max(0.70, min(conf, 0.99))] *)
Definition clamp (conf : pyfloat) : pyfloat := py_max f070 (py_min conf f099).

#[warnings="-register-all"]
Inductive json :=
| JNull
| JBool (b : bool)
| JInt (z : Z)
| JFloat (f : pyfloat)
| JStr (s : string)
| JArr (items : list json)
| JObj (fields : list (string * json)).

(** [bool(v)] *)
Definition truthy (v : json) : bool :=
  match v with
  | JNull => false
  | JBool b => b
  | JInt z => negb (z =? 0)%Z
  | JFloat (FNum q) => negb (Qeq_bool q 0)
  | JFloat _ => true
  | JStr s => truthy_str s
  | JArr items => match items with [] => false | _ => true end
  | JObj fields => match fields with [] => false | _ => true end
  end.

(** [type(v).__name__] *)
Definition type_name (v : json) : string :=
  match v with
  | JNull => "NoneType"
  | JBool _ => "bool"
  | JInt _ => "int"
  | JFloat _ => "float"
  | JStr _ => "str"
  | JArr _ => "list"
  | JObj _ => "dict"
  end.

(** An exception: its class and [str(e)]. *)
Record exn := Exn { exn_class : string; exn_msg : string }.

Inductive result (A : Type) :=
| Ok (a : A)
| Raise (e : exn).
Arguments Ok {A} a.
Arguments Raise {A} e.

#[global] Instance result_ret : MRet result := fun A a => Ok a.

#[global] Instance result_bind : MBind result := fun A B k r =>
  match r with
  | Ok a => k a
  | Raise e => Raise e
  end.

Definition no_attribute (v : json) (attr : string) : exn :=
  Exn "AttributeError"
      ("'" +:+ type_name v +:+ "' object has no attribute '" +:+ attr +:+ "'").

Fixpoint assoc (k : string) (fields : list (string * json)) : option json :=
  match fields with
  | [] => None
  | (k', v) :: rest => if String.eqb k k' then Some v else assoc k rest
  end.

(** [d.get(k, default)]; an [AttributeError] when [d] is not a dictionary. *)
Definition py_get (d : json) (k : string) (dflt : json) : result json :=
  match d with
  | JObj fields => Ok (default dflt (assoc k fields))
  | _ => Raise (no_attribute d "get")
  end.

(** [v[0]] *)
Definition py_first (v : json) : result json :=
  match v with
  | JArr (x :: _) => Ok x
  | JArr [] => Raise (Exn "IndexError" "list index out of range")
  | JStr (String c _) => Ok (JStr (String c EmptyString))
  | JStr EmptyString => Raise (Exn "IndexError" "string index out of range")
  | JObj _ => Raise (Exn "KeyError" "0")
  | _ => Raise (Exn "TypeError" ("'" +:+ type_name v +:+ "' object is not subscriptable"))
  end.

(** [(v or "").strip()] *)
Definition or_empty_strip (v : json) : result string :=
  if truthy v then
    match v with
    | JStr s => Ok (strip s)
    | _ => Raise (no_attribute v "strip")
    end
  else Ok (strip "").

(** Largest integer magnitude [float()] still converts; beyond it Python
    raises [OverflowError]. *)
Definition FLOAT_INT_LIMIT : Z := (2 ^ 1024 - 2 ^ 970)%Z.

Section Coercion.

(** [float(s)] on a string is the library's parser; [None] stands for its
    [ValueError]. *)
Variable float_of_str : string -> option pyfloat.

(** [float(v)] *)
Definition py_float (v : json) : result pyfloat :=
  match v with
  | JFloat f => Ok f
  | JInt z =>
      if (Z.abs z <? FLOAT_INT_LIMIT)%Z then Ok (FNum (inject_Z z))
      else Raise (Exn "OverflowError" "int too large to convert to float")
  | JBool b => Ok (FNum (if b then 1 else 0))
  | JStr s =>
      match float_of_str s with
      | Some f => Ok f
      | None => Raise (Exn "ValueError" ("could not convert string to float: " +:+ s))
      end
  | _ => Raise (Exn "TypeError" "float() argument must be a string or a real number")
  end.

(** [try: conf = float(raw_conf) / except Exception: conf = 0.75], then the
    clamp. *)
Definition coerce_confidence (raw_conf : json) : pyfloat :=
  clamp (match py_float raw_conf with
         | Ok f => f
         | Raise _ => f075
         end).

End Coercion.

(** ** Request and response models ([models.py]) *)

Record AIRequest := {
  question : string;
  options : option (list string);
  fieldType : string;
  userProfile : json
}.

Record AIResponse := {
  answer : string;
  confidence : pyfloat;
  reasoning : option string;
  intent : option string;
  isNewIntent : bool;
  suggestedIntentName : option string
}.

(** [AIResponse(answer=.., confidence=.., reasoning=.., intent=..)] *)
Definition mkResponse (a : string) (c : pyfloat) (r : string) (i : option string)
    : AIResponse :=
  {| answer := a; confidence := c; reasoning := Some r; intent := i;
     isNewIntent := false; suggestedIntentName := None |}.

Module Pattern.
Record t := {
  questionPattern : string;
  intent : string;
  canonicalKey : option string;
  fieldType : string;
  confidence : pyfloat;
  source : string;
  answerMappings : option (list json);
  usageCount : Z;
  createdAt : option string;
  lastUsed : option string
}.
End Pattern.

(** [request.options], read where the code tests its truth value: the list
    when there is a non-empty one. *)
Definition supplied_options (request : AIRequest) : list string :=
  match options request with
  | Some opts => opts
  | None => []
  end.

(** Attribute access on a request: the model declares four fields and no
    other. *)
Definition AIRequest_getattr (request : AIRequest) (name : string) : result json :=
  if String.eqb name "question" then Ok (JStr (question request))
  else if String.eqb name "options" then
    Ok (match options request with
        | Some opts => JArr (JStr <$> opts)
        | None => JNull
        end)
  else if String.eqb name "fieldType" then Ok (JStr (fieldType request))
  else if String.eqb name "userProfile" then Ok (userProfile request)
  else Raise (Exn "AttributeError"
                  ("'AIRequest' object has no attribute '" +:+ name +:+ "'")).

(** ** Option matcher (the block of [predict_answer] guarded by
    [request.options and raw_answer not in request.options]) *)

(** [d[k] = v] on an insertion-ordered dictionary: a key already there keeps
    its place and takes the new value. *)
Fixpoint dict_set (k v : string) (d : list (string * string)) : list (string * string) :=
  match d with
  | [] => [(k, v)]
  | (k', v') :: rest =>
      if String.eqb k k' then (k, v) :: rest else (k', v') :: dict_set k v rest
  end.

(** [d.get(k)] *)
Fixpoint dict_get (k : string) (d : list (string * string)) : option string :=
  match d with
  | [] => None
  | (k', v) :: rest => if String.eqb k k' then Some v else dict_get k rest
  end.

(** [{o.lower().strip(): o for o in options}] *)
Definition build_lower_map (opts : list string) : list (string * string) :=
  fold_left (fun d o => dict_set (strip (lower o)) o d) opts [].

Definition synonym_map : list (string * list string) :=
  [ ("male", ["man"; "cisgender male"; "cis male"]);
    ("female", ["woman"; "cisgender female"; "cis female"]);
    ("man", ["male"; "cisgender male"; "cis male"]);
    ("woman", ["female"; "cisgender female"; "cis female"]);
    ("non-binary", ["nonbinary"; "genderqueer"; "gender non-conforming";
                    "gender non-binary"; "non-binary/non-conforming"]);
    ("yes", ["y"; "true"; "i do"; "authorized"]);
    ("no", ["n"; "false"; "i do not"; "not authorized"]) ].

Fixpoint synonyms_of (k : string) (table : list (string * list string))
    : option (list string) :=
  match table with
  | [] => None
  | (k', syns) :: rest => if String.eqb k k' then Some syns else synonyms_of k rest
  end.

(** Truth value of a candidate that may be [None]. *)
Definition truthy_opt (c : option string) : bool :=
  match c with
  | Some s => truthy_str s
  | None => false
  end.

(** Step 1: [lower_map.get(raw_answer.lower().strip())]. *)
Definition exact_candidate (lower_map : list (string * string)) (raw_answer : string)
    : option string :=
  dict_get (strip (lower raw_answer)) lower_map.

(** The [for syn in synonym_map[ans_lower]] loop: the first synonym that is a
    key of [lower_map]. *)
Fixpoint first_synonym_hit (syns : list string) (lower_map : list (string * string))
    : option string :=
  match syns with
  | [] => None
  | syn :: rest =>
      match dict_get syn lower_map with
      | Some opt => Some opt
      | None => first_synonym_hit rest lower_map
      end
  end.

(** Step 2: what the synonym block assigns to [candidate], if anything. *)
Definition synonym_candidate (lower_map : list (string * string)) (raw_answer : string)
    : option string :=
  match synonyms_of (strip (lower raw_answer)) synonym_map with
  | Some syns => first_synonym_hit syns lower_map
  | None => None
  end.

(** Step 3: the first entry of [lower_map.items()] that contains the answer
    or is contained in it. *)
Definition substring_candidate (lower_map : list (string * string)) (raw_answer : string)
    : option string :=
  snd <$> List.find
            (fun '(opt_lower, _) =>
               contains opt_lower (lower raw_answer)
               || contains (lower raw_answer) opt_lower)
            lower_map.

(** [candidate] after the three steps; a step runs while [candidate] is
    still false and leaves it alone when it finds nothing. *)
Definition resolve_candidate (opts : list string) (raw_answer : string) : option string :=
  let lower_map := build_lower_map opts in
  let candidate := exact_candidate lower_map raw_answer in
  let candidate :=
    if truthy_opt candidate then candidate
    else match synonym_candidate lower_map raw_answer with
         | Some c => Some c
         | None => candidate
         end in
  if truthy_opt candidate then candidate
  else match substring_candidate lower_map raw_answer with
       | Some c => Some c
       | None => candidate
       end.

(** The body of the guarded block: the answer and the confidence it leaves. *)
Definition option_matcher (question : string) (opts : list string) (intent : string)
    (raw_answer : string) (conf : pyfloat) : string * pyfloat :=
  match resolve_candidate opts raw_answer with
  | Some c =>
      if truthy_str c then (c, conf)
      else (_repair_answer question (Some opts) intent, py_max conf f075)
  | None => (_repair_answer question (Some opts) intent, py_max conf f075)
  end.

(** The block with its guard. *)
Definition option_matcher_stage (request : AIRequest) (intent : string)
    (raw_answer : string) (conf : pyfloat) : string * pyfloat :=
  match supplied_options request with
  | [] => (raw_answer, conf)
  | opts =>
      if negb (str_in raw_answer opts)
      then option_matcher (question request) opts intent raw_answer conf
      else (raw_answer, conf)
  end.

(** [s.replace(old, new)] for a non-empty [old]; [skip] counts the characters
    of an occurrence still to be dropped. *)
Fixpoint replace_from (old new : string) (skip : nat) (s : string) : string :=
  match s with
  | EmptyString => EmptyString
  | String c s' =>
      match skip with
      | S k => replace_from old new k s'
      | O =>
          if String.prefix old s
          then new +:+ replace_from old new (String.length old - 1) s'
          else String c (replace_from old new 0 s')
      end
  end.

Definition replace (old new s : string) : string := replace_from old new 0 s.

(** [content_text.replace("```json", "").replace("```", "").strip()] *)
Definition clean_fences (content_text : string) : string :=
  strip (replace "```" "" (replace "```json" "" content_text)).

(** ** The predictor ([predict_answer]) *)

(** The two zero-confidence responses. *)
Definition CREDENTIALS_MISSING : AIResponse :=
  mkResponse "" f000 "AWS Credentials Missing" (Some "unknown").

Definition SERVICE_ERROR (e : exn) : AIResponse :=
  mkResponse "" f000 ("AWS Error: " +:+ exn_msg e) (Some "unknown").

(** The response of the [except json.JSONDecodeError] branch. *)
Definition formatting_fallback (request : AIRequest) : AIResponse :=
  let intent := _normalize_intent None (question request) in
  let ans := _repair_answer (question request) (options request) intent in
  mkResponse ans f078 "Fallback response due to formatting issue." (Some intent).

(** [_normalize_intent] on whatever [ai_data.get("intent")] holds: a false
    value is replaced by [""], a true one must have [strip]. *)
Definition normalize_raw_intent (raw_intent : json) (question : string) : result string :=
  if truthy raw_intent then
    match raw_intent with
    | JStr s => Ok (_normalize_intent (Some s) question)
    | _ => Raise (no_attribute raw_intent "strip")
    end
  else Ok (_normalize_intent None question).

Section Predictor.

Variable float_of_str : string -> option pyfloat.

(** The lines of [predict_answer] after a successful [json.loads]. *)
Definition postprocess (request : AIRequest) (ai_data : json) : result AIResponse :=
  a ← py_get ai_data "answer" JNull;
  raw_answer ← or_empty_strip a;
  raw_conf ← py_get ai_data "confidence" (JFloat f075);
  r ← py_get ai_data "reasoning" JNull;
  raw_reason ← or_empty_strip r;
  raw_intent ← py_get ai_data "intent" JNull;
  intent ← normalize_raw_intent raw_intent (question request);
  let conf := coerce_confidence float_of_str raw_conf in
  if _is_forbidden_answer raw_answer then
    let repaired := _repair_answer (question request) (options request) intent in
    Ok (mkResponse repaired (py_max conf f075)
                   "Repaired answer to avoid placeholders." (Some intent))
  else
    let '(raw_answer, conf) := option_matcher_stage request intent raw_answer conf in
    let intent := if bool_decide (intent ∈ ALLOWED_INTENTS) then intent else "unknown" in
    Ok (mkResponse raw_answer conf
                   (if truthy_str raw_reason then raw_reason
                    else "Answer chosen to maximize hiring chances.")
                   (Some intent)).

(** The inference service and the JSON decoder are outside the program.
    [bedrock_invoke] stands for lines 245-302: client, prompt, call and the
    reading of the reply, giving the model's text or the exception raised
    on the way.  [json_loads] is [json.loads]. *)
Variable bedrock_invoke : AIRequest -> result string.
Variable json_loads : string -> result json.

(** What happens once the credentials are there. *)
Definition infer (request : AIRequest) : result AIResponse :=
  content_text ← bedrock_invoke request;
  match json_loads (clean_fences content_text) with
  | Ok ai_data => postprocess request ai_data
  | Raise e =>
      if String.eqb (exn_class e) "JSONDecodeError"
      then Ok (formatting_fallback request)
      else Raise e
  end.

End Predictor.

(** ** The world around the service *)

(** The steps of a run that leave the process, in order.  [CallBedrock]
    records that the predictor, having found both credentials, entered lines
    245-302, the block [bedrock_invoke] stands for: the client is built, the
    prompt written and [invoke_model] called there.  When that block raises
    before it reaches [invoke_model] the entry is in the log all the same:
    the log tells that the predictor went for the inference service, not
    that a request reached it. *)
Inductive call :=
| CallBedrock (request : AIRequest)
| CallSearch (q : string)
| CallSave (pattern : Pattern.t) (user_email : json).

Definition is_save (c : call) : bool :=
  match c with CallSave _ _ => true | _ => false end.

Definition is_bedrock (c : call) : bool :=
  match c with CallBedrock _ => true | _ => false end.

Section Service.

(** The pattern store ([pattern_service]) and the configuration ([config])
    are collaborators the repository's sources do not include: the store
    is a state of some type with its two operations, the configured
    constant a float. *)
Variable Store : Type.
Variable search_pattern : string -> Store -> result json * Store.
Variable save_pattern : Pattern.t -> json -> Store -> result bool * Store.
Variable PATTERN_MEMORY_CONFIDENCE : pyfloat.

Variable float_of_str : string -> option pyfloat.
Variable bedrock_invoke : AIRequest -> result string.
Variable json_loads : string -> result json.

Record World := {
  environ : gmap string string;
  store : Store;
  calls : list call
}.

Definition log (c : call) (w : World) : World :=
  {| environ := environ w; store := store w; calls := calls w ++ [c] |}.

Definition with_store (s : Store) (w : World) : World :=
  {| environ := environ w; store := s; calls := calls w |}.

Definition M (A : Type) : Type := World -> result A * World.

#[local] Instance M_ret : MRet M := fun A a w => (Ok a, w).

#[local] Instance M_bind : MBind M := fun A B k m w =>
  match m w with
  | (Ok a, w') => k a w'
  | (Raise e, w') => (Raise e, w')
  end.

(** A pure step that may raise. *)
Definition lift {A} (r : result A) : M A := fun w => (r, w).

(** [try: m / except Exception as e: h e] *)
Definition try_except {A} (m : M A) (h : exn -> M A) : M A := fun w =>
  match m w with
  | (Ok a, w') => (Ok a, w')
  | (Raise e, w') => h e w'
  end.

Definition call_search (q : string) : M json := fun w =>
  let '(r, s) := search_pattern q (store w) in
  (r, with_store s (log (CallSearch q) w)).

Definition call_save (pattern : Pattern.t) (user_email : json) : M bool := fun w =>
  let '(r, s) := save_pattern pattern user_email (store w) in
  (r, with_store s (log (CallSave pattern user_email) w)).

(** [predict_answer(request)].  Its [except Exception] turns every failure
    into a response, so it returns one in every world.  Past the credentials
    check the run is logged as [CallBedrock], whether lines 245-302 then
    return the model's text or raise. *)
Definition predict_answer (request : AIRequest) (w : World) : AIResponse * World :=
  let aws_access_key := environ w !! "AWS_ACCESS_KEY_ID" in
  let aws_secret_key := environ w !! "AWS_SECRET_ACCESS_KEY" in
  if negb (truthy_opt aws_access_key) || negb (truthy_opt aws_secret_key)
  then (CREDENTIALS_MISSING, w)
  else
    let w' := log (CallBedrock request) w in
    match infer float_of_str bedrock_invoke json_loads request with
    | Ok response => (response, w')
    | Raise e => (SERVICE_ERROR e, w')
    end.

(** ** The [/predict] endpoint ([app.py]) *)

(** [answer] as the hit branch computes it from a match that is true. *)
Definition memory_answer (memory_match : json) : result json :=
  mappings ← py_get memory_match "answerMappings" (JArr []);
  if truthy mappings then
    first ← py_first mappings;
    variants ← py_get first "variants" (JArr []);
    if truthy variants then py_first variants
    else py_get first "canonicalValue" (JStr "")
  else Ok (JStr "").

(** Validation of the fields the hit branch passes to [AIResponse]. *)
Definition validated_str (field : string) (v : json) : result string :=
  match v with
  | JStr s => Ok s
  | _ => Raise (Exn "ValidationError" (field +:+ ": input should be a valid string"))
  end.

Definition validated_opt_str (field : string) (v : json) : result (option string) :=
  match v with
  | JNull => Ok None
  | _ => s ← validated_str field v; Ok (Some s)
  end.

(** Step 1 of [predict]: the response served from pattern memory, or [None]
    when the flow goes on to the predictor. *)
Definition memory_hit (memory_match : json) : result (option AIResponse) :=
  if truthy memory_match then
    ans ← memory_answer memory_match;
    if truthy ans then
      stored_intent ← py_get memory_match "intent" JNull;
      a ← validated_str "answer" ans;
      i ← validated_opt_str "intent" stored_intent;
      Ok (Some (mkResponse a PATTERN_MEMORY_CONFIDENCE
                           "Retrieved from Pattern Memory" i))
    else Ok None
  else Ok None.

(** [if not ai_response.intent: ai_response.intent = "unknown"] *)
Definition hard_safety (ai_response : AIResponse) : AIResponse :=
  if negb (truthy_opt (intent ai_response)) then
    {| answer := answer ai_response;
       confidence := confidence ai_response;
       reasoning := reasoning ai_response;
       intent := Some "unknown";
       isNewIntent := isNewIntent ai_response;
       suggestedIntentName := suggestedIntentName ai_response |}
  else ai_response.

(** [Pattern(...)] as step 3 builds it; its [intent] field takes a string. *)
Definition learned_pattern (request : AIRequest) (ai_response : AIResponse)
    : result Pattern.t :=
  i ← match intent ai_response with
      | Some i => Ok i
      | None => Raise (Exn "ValidationError" "intent: input should be a valid string")
      end;
  Ok {| Pattern.questionPattern := strip (lower (question request));
        Pattern.intent := i;
        Pattern.canonicalKey := None;
        Pattern.fieldType := fieldType request;
        Pattern.confidence := confidence ai_response;
        Pattern.source := "AI";
        Pattern.answerMappings :=
          Some [ JObj [ ("canonicalValue", JStr (answer ai_response));
                        ("variants", JArr [JStr (answer ai_response)]);
                        ("contextOptions",
                         JArr (JStr <$> supplied_options request)) ] ];
        Pattern.usageCount := 1;
        Pattern.createdAt := None;
        Pattern.lastUsed := None |}.

(** The body of the [try] of step 3: the pattern is built, then the
    arguments of [save_pattern] are evaluated, then it is called. *)
Definition save_learned (request : AIRequest) (ai_response : AIResponse) : M unit :=
  pattern ← lift (learned_pattern request ai_response);
  user_email ← lift (AIRequest_getattr request "userEmail");
  _ ← call_save pattern user_email;
  mret ().

(** Steps 2 and 3. *)
Definition predict_miss (request : AIRequest) : M AIResponse :=
  ai_response ← (fun w => let '(r, w') := predict_answer request w in (Ok r, w'));
  let ai_response := hard_safety ai_response in
  _ ← (if truthy_str (answer ai_response) && fge (confidence ai_response) f070
       then try_except (save_learned request ai_response) (fun _ => mret ())
       else mret ());
  mret ai_response.

(** [predict] from the point where [search_pattern] has answered. *)
Definition predict_after_search (request : AIRequest) (memory_match : json)
    : M AIResponse :=
  hit ← lift (memory_hit memory_match);
  match hit with
  | Some response => mret response
  | None => predict_miss request
  end.

(** [predict(request)] *)
Definition predict (request : AIRequest) : M AIResponse :=
  memory_match ← call_search (question request);
  predict_after_search request memory_match.

End Service.

Arguments environ {Store} w.
Arguments store {Store} w.
Arguments calls {Store} w.

(** ** The same functions over the interpreter's string methods

    [str.strip] and [str.lower] belong to the interpreter, not to the
    repository: they trim every Unicode whitespace character and fold every
    cased letter.  [strip] and [lower] above are what they do on ASCII text.
    In [Runtime] the two methods are parameters, text is UTF-8, and the
    functions of [ai_service.py] are written over them once more, line for
    line, so that a statement made there holds for text in any script.
    [re.IGNORECASE] is modelled in full for the characters the patterns are
    made of. *)

Module Runtime.

(** The characters beyond its own two cases that [re.IGNORECASE] lets an ASCII
    letter of a pattern match: U+0130 and U+0131 for i, U+212A for k, U+017F
    for s. *)
Definition extra_cases (p : ascii) : list string :=
  if Ascii.eqb (lower_char p) "i" then [ "İ"; "ı" ]
  else if Ascii.eqb (lower_char p) "k" then [ "K" ]
  else if Ascii.eqb (lower_char p) "s" then [ "ſ" ]
  else [].

(** [s] without its prefix [pre], when it has it. *)
Fixpoint drop_prefix (pre s : string) : option string :=
  match pre with
  | EmptyString => Some s
  | String a pre' =>
      match s with
      | String c s' => if Ascii.eqb a c then drop_prefix pre' s' else None
      | EmptyString => None
      end
  end.

Fixpoint drop_first (alternatives : list string) (s : string) : option string :=
  match alternatives with
  | [] => None
  | a :: rest =>
      match drop_prefix a s with
      | Some t => Some t
      | None => drop_first rest s
      end
  end.

(** The text after one character that the literal [p] matches, and the last
    byte of that character. *)
Definition match_char (p : ascii) (s : string) : option (ascii * string) :=
  match s with
  | EmptyString => None
  | String c s' =>
      if char_matches p c then Some (c, s')
      else (fun t => (c, t)) <$> drop_first (extra_cases p) s
  end.

(** As [re_match_here] above, a literal consuming one character of the text.
    A word boundary is told by ASCII word characters; the patterns of the
    source have none. *)
Fixpoint re_match_here (r : list re_atom) (prev : option ascii) (s : string) : bool :=
  match r with
  | [] => true
  | AChar p :: r' =>
      match match_char p s with
      | Some (c, s') => re_match_here r' (Some c) s'
      | None => false
      end
  | AOpt p :: r' =>
      match match_char p s with
      | Some (c, s') => re_match_here r' (Some c) s'
      | None => false
      end
      || re_match_here r' prev s
  | ABoundary :: r' =>
      negb (Bool.eqb (word_before prev) (word_after s)) && re_match_here r' prev s
  end.

Fixpoint re_search_from (r : list re_atom) (prev : option ascii) (s : string) : bool :=
  re_match_here r prev s
  || match s with
     | EmptyString => false
     | String c s' => re_search_from r (Some c) s'
     end.

(** [re.search(pat, s, flags=re.IGNORECASE)], as a truth value. *)
Definition re_search (pat s : string) : bool :=
  re_search_from (re_compile pat) None s.

(** The text with the given bytes. *)
Definition utf8 (bytes : list nat) : string :=
  fold_right (fun b s => String (ascii_of_nat b) s) EmptyString bytes.

(** The whitespace characters of [str.strip] beyond the ASCII range: U+0085,
    U+00A0, U+1680, U+2000 to U+200A, U+2028, U+2029, U+202F, U+205F and
    U+3000, in UTF-8. *)
Definition wide_whitespace : list string :=
  [ utf8 [194; 133]; utf8 [194; 160]; utf8 [225; 154; 128] ]
  ++ ((fun b => utf8 [226; 128; b]) <$> seq 128 11)
  ++ [ utf8 [226; 128; 168]; utf8 [226; 128; 169]; utf8 [226; 128; 175];
       utf8 [226; 129; 159]; utf8 [227; 128; 128] ].

(** The no-break space, U+00A0. *)
Definition nbsp : string := utf8 [194; 160].

(** The number of bytes of the wide whitespace character [s] starts with. *)
Definition wide_space (s : string) : option nat :=
  String.length <$> List.find (fun ws => String.prefix ws s) wide_whitespace.

(** [s.lstrip()]; [skip] counts the bytes still to be dropped of a wide
    whitespace character. *)
Fixpoint lstrip_from (skip : nat) (s : string) : string :=
  match s with
  | EmptyString => EmptyString
  | String c s' =>
      match skip with
      | S k => lstrip_from k s'
      | O =>
          if is_space c then lstrip_from 0 s'
          else match wide_space s with
               | Some n => lstrip_from (n - 1) s'
               | None => s
               end
      end
  end.

(** A text that is one whitespace character. *)
Definition is_whitespace (t : string) : bool :=
  match t with
  | String c EmptyString => is_space c
  | _ => str_in t wide_whitespace
  end.

(** [s.rstrip()]: a character goes when it is whitespace and all that
    follows it went too. *)
Fixpoint str_rstrip (s : string) : string :=
  match s with
  | EmptyString => EmptyString
  | String c s' =>
      let t := String c (str_rstrip s') in
      if is_whitespace t then EmptyString else t
  end.

(** [s.strip()] on text in any script. *)
Definition str_strip (s : string) : string := str_rstrip (lstrip_from 0 s).

Section Text.

(** [s.strip()] and [s.lower()] of the interpreter. *)
Variable strip : string -> string.
Variable lower : string -> string.

(** [_normalize_intent(intent, question)] *)
Definition _normalize_intent (intent : option string) (question : string) : string :=
  let intent := match intent with
                | Some i => if truthy_str i then i else ""
                | None => ""
                end in
  let raw := strip intent in
  let key := remove_char "_" (remove_char "-" (remove_char " " (lower raw))) in
  if bool_decide (raw ∈ ALLOWED_INTENTS) then raw
  else
    match INTENT_NORMALIZATION !! key with
    | Some canonical => canonical
    | None =>
        let q := lower question in
        if contains "salary" q || contains "compensation" q || contains "pay" q
        then "personal.desiredSalary"
        else if contains "anything else" q || contains "additional" q
                || contains "know about you" q
        then "personal.additionalInfo"
        else if contains "strong fit" q || contains "why you" q
                || contains "why should we hire" q
        then "experience.whyFit"
        else "unknown"
    end.

(** [_is_forbidden_answer(ans)] *)
Definition _is_forbidden_answer (ans : string) : bool :=
  let s := lower (strip ans) in
  if negb (truthy_str s) then true
  else existsb (fun pat => re_search pat s) FORBIDDEN_ANSWER_PATTERNS.

(** [opt.strip().lower() == p.lower()] *)
Definition pref_matches (p opt : string) : bool :=
  String.eqb (lower (strip opt)) (lower p).

Fixpoint first_preferred (ps options : list string) : option string :=
  match ps with
  | [] => None
  | p :: ps' =>
      match List.find (pref_matches p) options with
      | Some opt => Some opt
      | None => first_preferred ps' options
      end
  end.

(** [_repair_answer(question, options, intent)] *)
Definition _repair_answer (question : string) (options : option (list string))
    (intent : string) : string :=
  let q := lower question in
  match options with
  | Some (first :: rest) =>
      match first_preferred pref (first :: rest) with
      | Some opt => opt
      | None => first
      end
  | _ =>
      if String.eqb intent "personal.desiredSalary" || contains "salary" q
         || contains "compensation" q
      then SALARY_FALLBACK
      else if String.eqb intent "personal.additionalInfo"
              || contains "anything else" q || contains "additional" q
      then ADDITIONAL_FALLBACK
      else if String.eqb intent "experience.whyFit" || contains "strong fit" q
              || contains "why should" q
      then WHYFIT_FALLBACK
      else GENERIC_FALLBACK
  end.

(** [{o.lower().strip(): o for o in options}] *)
Definition build_lower_map (opts : list string) : list (string * string) :=
  fold_left (fun d o => dict_set (strip (lower o)) o d) opts [].

Definition exact_candidate (lower_map : list (string * string)) (raw_answer : string)
    : option string :=
  dict_get (strip (lower raw_answer)) lower_map.

Definition synonym_candidate (lower_map : list (string * string)) (raw_answer : string)
    : option string :=
  match synonyms_of (strip (lower raw_answer)) synonym_map with
  | Some syns => first_synonym_hit syns lower_map
  | None => None
  end.

Definition substring_candidate (lower_map : list (string * string)) (raw_answer : string)
    : option string :=
  snd <$> List.find
            (fun '(opt_lower, _) =>
               contains opt_lower (lower raw_answer)
               || contains (lower raw_answer) opt_lower)
            lower_map.

Definition resolve_candidate (opts : list string) (raw_answer : string) : option string :=
  let lower_map := build_lower_map opts in
  let candidate := exact_candidate lower_map raw_answer in
  let candidate :=
    if truthy_opt candidate then candidate
    else match synonym_candidate lower_map raw_answer with
         | Some c => Some c
         | None => candidate
         end in
  if truthy_opt candidate then candidate
  else match substring_candidate lower_map raw_answer with
       | Some c => Some c
       | None => candidate
       end.

(** The block guarded by [request.options and raw_answer not in
    request.options], and the block with its guard. *)
Definition option_matcher (question : string) (opts : list string) (intent : string)
    (raw_answer : string) (conf : pyfloat) : string * pyfloat :=
  match resolve_candidate opts raw_answer with
  | Some c =>
      if truthy_str c then (c, conf)
      else (_repair_answer question (Some opts) intent, py_max conf f075)
  | None => (_repair_answer question (Some opts) intent, py_max conf f075)
  end.

Definition option_matcher_stage (request : AIRequest) (intent : string)
    (raw_answer : string) (conf : pyfloat) : string * pyfloat :=
  match supplied_options request with
  | [] => (raw_answer, conf)
  | opts =>
      if negb (str_in raw_answer opts)
      then option_matcher (question request) opts intent raw_answer conf
      else (raw_answer, conf)
  end.

(** [(v or "").strip()] *)
Definition or_empty_strip (v : json) : result string :=
  if truthy v then
    match v with
    | JStr s => Ok (strip s)
    | _ => Raise (no_attribute v "strip")
    end
  else Ok (strip "").

Definition normalize_raw_intent (raw_intent : json) (question : string) : result string :=
  if truthy raw_intent then
    match raw_intent with
    | JStr s => Ok (_normalize_intent (Some s) question)
    | _ => Raise (no_attribute raw_intent "strip")
    end
  else Ok (_normalize_intent None question).

Variable float_of_str : string -> option pyfloat.

(** The lines of [predict_answer] after a successful [json.loads]. *)
Definition postprocess (request : AIRequest) (ai_data : json) : result AIResponse :=
  a ← py_get ai_data "answer" JNull;
  raw_answer ← or_empty_strip a;
  raw_conf ← py_get ai_data "confidence" (JFloat f075);
  r ← py_get ai_data "reasoning" JNull;
  raw_reason ← or_empty_strip r;
  raw_intent ← py_get ai_data "intent" JNull;
  intent ← normalize_raw_intent raw_intent (question request);
  let conf := coerce_confidence float_of_str raw_conf in
  if _is_forbidden_answer raw_answer then
    let repaired := _repair_answer (question request) (options request) intent in
    Ok (mkResponse repaired (py_max conf f075)
                   "Repaired answer to avoid placeholders." (Some intent))
  else
    let '(raw_answer, conf) := option_matcher_stage request intent raw_answer conf in
    let intent := if bool_decide (intent ∈ ALLOWED_INTENTS) then intent else "unknown" in
    Ok (mkResponse raw_answer conf
                   (if truthy_str raw_reason then raw_reason
                    else "Answer chosen to maximize hiring chances.")
                   (Some intent)).

End Text.

End Runtime.

(** ** Predicates of the statements *)

(** The character every compiled pattern begins with. *)
Definition backslash : ascii := "\"%char.

(** The phrases the detector is written to catch. *)
Definition placeholder_phrases : list string :=
  [ "not provided"; "i don't know"; "do not know"; "n/a"; "na";
    "free text input"; "no additional information"; "nothing to add";
    "not sure" ].

(** A confidence in the closed interval from 0.70 to 0.99. *)
Definition in_range (f : pyfloat) : Prop :=
  exists q, f = FNum q /\ (0.70 <= q)%Q /\ (q <= 0.99)%Q.

(** [f == 0.0] *)
Definition is_zero (f : pyfloat) : bool :=
  match f with
  | FNum q => Qeq_bool q 0
  | _ => false
  end.

(** The options of the request are usable answers themselves: none is blank
    and none is flagged by the detector. *)
Definition clean_options (request : AIRequest) : Prop :=
  Forall (fun o => _is_forbidden_answer o = false) (supplied_options request).

(** One of the two zero-confidence terminal responses. *)
Definition terminal (response : AIResponse) : Prop :=
  response = CREDENTIALS_MISSING \/ exists e, response = SERVICE_ERROR e.

(** A value [(v or "").strip()] and [_normalize_intent] accept: a string, or
    anything false. *)
Definition text_like (v : json) : Prop :=
  truthy v = false \/ exists s, v = JStr s.

(** A stored match with nothing to serve: its [answerMappings] is the empty
    list, or its first mapping has no variants and an empty canonical
    value. *)
Definition nothing_to_serve (fields : list (string * json)) : Prop :=
  assoc "answerMappings" fields = Some (JArr [])
  \/ exists first rest,
       assoc "answerMappings" fields = Some (JArr (JObj first :: rest))
       /\ (assoc "variants" first = None \/ assoc "variants" first = Some (JArr []))
       /\ (assoc "canonicalValue" first = None
           \/ assoc "canonicalValue" first = Some (JStr "")).

(** ** Concrete requests and worlds *)

(** The request of the work-authorisation scenario. *)
Definition authorized_request : AIRequest :=
  {| question := "Are you authorized to work in the US?";
     options := Some ["Yes"; "No"];
     fieldType := "radio";
     userProfile := JObj [] |}.

(** A store that is the list of what was saved, with a search that finds
    nothing or a fixed match, and a save that appends. *)
Definition shelf : Type := list (Pattern.t * json).

Definition search_none (q : string) (s : shelf) : result json * shelf := (Ok JNull, s).

Definition search_finds (found : json) (q : string) (s : shelf) : result json * shelf :=
  (Ok found, s).

Definition save_appends (pattern : Pattern.t) (user_email : json) (s : shelf)
    : result bool * shelf :=
  (Ok true, (s ++ [(pattern, user_email)])%list).

Definition configured_environ : gmap string string :=
  {[ "AWS_ACCESS_KEY_ID" := "AKIAEXAMPLE"; "AWS_SECRET_ACCESS_KEY" := "example" ]}.

Definition configured_world : World shelf :=
  {| environ := configured_environ; store := []; calls := [] |}.

Definition bare_world : World shelf :=
  {| environ := ∅; store := []; calls := [] |}.

Definition no_float (s : string) : option pyfloat := None.

Definition replies (text : string) (request : AIRequest) : result string := Ok text.

Definition decodes_to (data : json) (text : string) : result json := Ok data.

Definition undecodable (text : string) : result json :=
  Raise (Exn "JSONDecodeError" "Expecting value: line 1 column 1 (char 0)").

(** A dropdown whose first entry is the empty placeholder. *)
Definition placeholder_dropdown_request : AIRequest :=
  {| question := "Are you authorized to work in the US?";
     options := Some [""; "Yes"; "No"];
     fieldType := "dropdown_native";
     userProfile := JObj [] |}.

(** A well-formed reply of the model to [authorized_request]. *)
Definition authorized_reply : json :=
  JObj [ ("answer", JStr "Yes"); ("confidence", JFloat (FNum 0.9));
         ("reasoning", JStr "Profile states work authorization.");
         ("intent", JStr "workAuthorization.authorizedUS") ].

(** Stored matches: one uploaded with an intent of its own, one without any. *)
Definition stored_uploaded : json :=
  JObj [ ("intent", JStr "visa_status");
         ("answerMappings",
          JArr [ JObj [ ("canonicalValue", JStr "Yes");
                        ("variants", JArr [JStr "Yes"]) ] ]) ].

Definition stored_without_intent : json :=
  JObj [ ("answerMappings",
          JArr [ JObj [ ("canonicalValue", JStr "Yes"); ("variants", JArr []) ] ]) ].

(** A stored match with nothing to serve. *)
Definition stored_empty : json :=
  JObj [ ("intent", JStr "personal.city"); ("answerMappings", JArr []) ].

(** ** The API key gate ([verify_api_key] of [app.py]) *)

(** What a dependency or endpoint function does: it returns, or it raises
    [HTTPException]. *)
Inductive http (A : Type) :=
| Returned (a : A)
| HTTPException (status_code : Z) (detail : string).
Arguments Returned {A} a.
Arguments HTTPException {A} status_code detail.

(** [verify_api_key(api_key)].  [API_KEY] is [config.API_KEY], a constant of
    the configuration module (not among the sources); [api_key] is the
    X-API-Key header, [None] when the request carries none.  The two log
    lines are left out. *)
Definition verify_api_key (API_KEY api_key : option string) : http unit :=
  if negb (truthy_opt API_KEY) then Returned ()
  else if negb (bool_decide (api_key = API_KEY))
  then HTTPException 403
         "Could not validate credentials - Missing or invalid X-API-Key"
  else Returned ().

(** ** The analytics logger ([analytics_service.py]) *)

Module AnalyticsEvent.
Record t := {
  user_email : option string;
  user_name : option string;
  url : string;
  scan_duration_ms : Z;
  total_questions : Z;
  mapping_duration_ms : Z;
  mapped_by_rules : Z;
  ai_questions_count : Z;
  ai_calls_count : Z;
  learned_patterns_used : Z;
  filling_duration_ms : Z;
  filled_success_count : Z;
  filled_failed_count : Z;
  missed_questions : option (list string);
  all_questions : option (list string);
  total_process_time_ms : Z
}.
End AnalyticsEvent.

Definition json_of_opt_str (o : option string) : json :=
  match o with
  | Some s => JStr s
  | None => JNull
  end.

Definition json_of_opt_list (o : option (list string)) : json :=
  match o with
  | Some l => JArr (JStr <$> l)
  | None => JNull
  end.

(** [event.dict()]: the fields in the order the model declares them. *)
Definition event_dict (event : AnalyticsEvent.t) : list (string * json) :=
  [ ("user_email", json_of_opt_str (AnalyticsEvent.user_email event));
    ("user_name", json_of_opt_str (AnalyticsEvent.user_name event));
    ("url", JStr (AnalyticsEvent.url event));
    ("scan_duration_ms", JInt (AnalyticsEvent.scan_duration_ms event));
    ("total_questions", JInt (AnalyticsEvent.total_questions event));
    ("mapping_duration_ms", JInt (AnalyticsEvent.mapping_duration_ms event));
    ("mapped_by_rules", JInt (AnalyticsEvent.mapped_by_rules event));
    ("ai_questions_count", JInt (AnalyticsEvent.ai_questions_count event));
    ("ai_calls_count", JInt (AnalyticsEvent.ai_calls_count event));
    ("learned_patterns_used", JInt (AnalyticsEvent.learned_patterns_used event));
    ("filling_duration_ms", JInt (AnalyticsEvent.filling_duration_ms event));
    ("filled_success_count", JInt (AnalyticsEvent.filled_success_count event));
    ("filled_failed_count", JInt (AnalyticsEvent.filled_failed_count event));
    ("missed_questions", json_of_opt_list (AnalyticsEvent.missed_questions event));
    ("all_questions", json_of_opt_list (AnalyticsEvent.all_questions event));
    ("total_process_time_ms", JInt (AnalyticsEvent.total_process_time_ms event)) ].

(** [d[k] = v] on a dictionary of JSON values. *)
Fixpoint json_set (k : string) (v : json) (d : list (string * json))
    : list (string * json) :=
  match d with
  | [] => [(k, v)]
  | (k', v') :: rest =>
      if String.eqb k k' then (k, v) :: rest else (k', v') :: json_set k v rest
  end.

(** The row [log_analytics_event] hands to the insert. *)
Definition analytics_row (event : AnalyticsEvent.t) : list (string * json) :=
  let data := event_dict event in
  match default JNull (assoc "missed_questions" data) with
  | JNull => json_set "missed_questions" (JArr []) data
  | _ => data
  end.

(** [log_analytics_event(event)].  [insert] stands for the Supabase client:
    given the row it gives [result.data], or raises.  The value is the
    boolean returned together with the rows handed to [insert]. *)
Definition log_analytics_event (insert : json -> result json)
    (event : AnalyticsEvent.t) : bool * list json :=
  let data := analytics_row event in
  let outcome :=
    result_data ← insert (JObj data);
    if truthy result_data then
      first ← py_first result_data;
      _ ← py_get first "id" JNull;
      Ok true
    else Ok false in
  (match outcome with
   | Ok saved => saved
   | Raise _ => false
   end,
   [JObj data]).

(** * Properties *)

(** ** The primitives on small inputs *)

Example strip_drops_outer_space : strip "  Prefer not to say " = "Prefer not to say".
Proof. reflexivity. Qed.

Example lower_map_keeps_first_place_last_value :
  build_lower_map ["Yes"; "YES "; "No"] = [("yes", "YES "); ("no", "No")].
Proof. reflexivity. Qed.

Example clamp_of_nan_and_infinities :
  clamp FNaN = f070 /\ clamp (FInf false) = f099 /\ clamp (FInf true) = f070
  /\ clamp (FNum 0.85) = FNum 0.85.
Proof. repeat split; reflexivity. Qed.

Example normalize_by_table_and_by_question :
  _normalize_intent (Some " Why-Fit ") "" = "experience.whyFit"
  /\ _normalize_intent None "What is your expected pay?" = "personal.desiredSalary"
  /\ _normalize_intent (Some "eeo.gender") "Gender" = "eeo.gender"
  /\ _normalize_intent (Some "gender") "Gender" = "unknown".
Proof. repeat split; vm_compute; reflexivity. Qed.

Example substring_step_takes_first_in_list_order :
  resolve_candidate ["Sweden"; "Norway"; "Nothing"] "No" = Some "Norway".
Proof. vm_compute. reflexivity. Qed.

(** ** Intent normaliser *)

Lemma normalization_targets_allowed (key canonical : string) :
  INTENT_NORMALIZATION !! key = Some canonical -> canonical ∈ ALLOWED_INTENTS.
Proof.
  intros Hlookup.
  apply elem_of_list_to_map_2 in Hlookup.
  apply list_elem_of_In in Hlookup. simpl in Hlookup.
  repeat (destruct Hlookup as [Heq | Hlookup];
          [ simplify_eq; apply (bool_decide_unpack _); vm_compute; exact I | ]).
  destruct Hlookup.
Qed.

Lemma normalize_intent_member (raw_intent : option string) (question : string) :
  _normalize_intent raw_intent question ∈ ALLOWED_INTENTS.
Proof.
  unfold _normalize_intent.
  case_bool_decide as Hraw; [exact Hraw | ].
  destruct (INTENT_NORMALIZATION !! _) as [canonical | ] eqn:Hkey.
  { eapply normalization_targets_allowed, Hkey. }
  repeat match goal with
         | |- context [if ?b then _ else _] => destruct b
         end;
    apply (bool_decide_unpack _); vm_compute; exact I.
Qed.

(** C8: for every raw intent, absent or not, and every question, the value
    [_normalize_intent] returns is a member of the Allowed Intent Set.  The
    normaliser is a function of its two arguments alone: it reads the two
    static tables and touches no state. *)
Theorem normalize_intent_allowed (raw_intent : option string) (question : string) :
  _normalize_intent raw_intent question ∈ ALLOWED_INTENTS.
Proof. apply normalize_intent_member. Qed.

(** ** Forbidden-answer detector *)

Lemma blank_is_forbidden (ans : string) :
  strip ans = "" -> _is_forbidden_answer ans = true.
Proof. intros Hblank. unfold _is_forbidden_answer. rewrite Hblank. reflexivity. Qed.

Lemma forbidden_not_empty (ans : string) :
  _is_forbidden_answer ans = false -> ans <> "".
Proof. intros Hok ->. discriminate Hok. Qed.

Lemma contains_backslash_cons (c : ascii) (s : string) :
  contains "\" (String c s) = Ascii.eqb c backslash || contains "\" s.
Proof.
  cbn [contains String.prefix].
  destruct (ascii_dec "\" c) as [<- | Hne].
  - destruct s; reflexivity.
  - destruct (Ascii.eqb_spec c backslash) as [-> | _]; [ | reflexivity].
    exfalso. apply Hne. reflexivity.
Qed.

Lemma lower_char_backslash (c : ascii) :
  Ascii.eqb (lower_char c) backslash = Ascii.eqb c backslash.
Proof. destruct c as [[] [] [] [] [] [] [] []]; vm_compute; reflexivity. Qed.

Lemma lower_no_backslash (s : string) :
  contains "\" (lower s) = contains "\" s.
Proof.
  induction s as [ | c s IH]; [reflexivity | ].
  cbn [lower]. rewrite !contains_backslash_cons, lower_char_backslash, IH. reflexivity.
Qed.

Lemma lstrip_no_backslash (s : string) :
  contains "\" s = false -> contains "\" (lstrip s) = false.
Proof.
  induction s as [ | c s IH]; [reflexivity | ].
  intros Hs. cbn [lstrip]. destruct (is_space c); [ | exact Hs].
  rewrite contains_backslash_cons in Hs. apply orb_false_iff in Hs as [_ Hs]. auto.
Qed.

Lemma rstrip_no_backslash (s : string) :
  contains "\" s = false -> contains "\" (rstrip s) = false.
Proof.
  induction s as [ | c s IH]; [reflexivity | ].
  intros Hs. rewrite contains_backslash_cons in Hs.
  apply orb_false_iff in Hs as [Hc Hs]. specialize (IH Hs). cbn [rstrip].
  destruct (rstrip s) as [ | c' t].
  - destruct (is_space c); [reflexivity | ].
    rewrite contains_backslash_cons, Hc. reflexivity.
  - rewrite contains_backslash_cons, Hc. exact IH.
Qed.

Lemma search_needs_backslash (r : list re_atom) (prev : option ascii) (s : string) :
  contains "\" s = false -> re_search_from (AChar backslash :: r) prev s = false.
Proof.
  revert prev. induction s as [ | c s IH]; intros prev Hs; [reflexivity | ].
  rewrite contains_backslash_cons in Hs. apply orb_false_iff in Hs as [Hc Hs].
  cbn [re_search_from re_match_here]. rewrite (IH _ Hs), orb_false_r.
  unfold char_matches. rewrite Ascii.eqb_sym, lower_char_backslash, Hc. reflexivity.
Qed.

Lemma patterns_start_with_backslash :
  Forall (fun pat => exists r, re_compile pat = AChar backslash :: r)
         FORBIDDEN_ANSWER_PATTERNS.
Proof.
  repeat (apply Forall_cons; split; [eexists; vm_compute; reflexivity | ]).
  apply Forall_nil. exact I.
Qed.

(** As the patterns stand, an answer without a backslash in it is flagged
    only when it is blank. *)
Lemma no_backslash_not_flagged (ans : string) :
  strip ans <> "" -> contains "\" ans = false -> _is_forbidden_answer ans = false.
Proof.
  intros Hblank Hans. unfold _is_forbidden_answer.
  assert (Hs : contains "\" (lower (strip ans)) = false).
  { rewrite lower_no_backslash. apply rstrip_no_backslash, lstrip_no_backslash, Hans. }
  destruct (strip ans) as [ | c t] eqn:Hstrip; [congruence | ].
  cbn [lower truthy_str negb]. cbn [lower] in Hs.
  apply not_true_is_false. intros Hflag. apply existsb_exists in Hflag as (pat & Hin & Hpat).
  pose proof patterns_start_with_backslash as Hall. rewrite Forall_forall in Hall.
  destruct (Hall pat) as (r & Hr); [apply list_elem_of_In, Hin | ].
  unfold re_search in Hpat. rewrite Hr, search_needs_backslash in Hpat;
    [discriminate | exact Hs].
Qed.

(** C2: the detector run on the placeholder phrases themselves.  Every
    pattern of [FORBIDDEN_ANSWER_PATTERNS] is written with a doubled
    backslash inside a raw string, so it asks for a backslash and the letter
    b around the phrase where a word boundary was meant: none of the phrases
    is flagged, in any casing and with or without surrounding text. *)
Theorem placeholder_phrases_not_flagged :
  Forall (fun phrase => _is_forbidden_answer phrase = false) placeholder_phrases
  /\ _is_forbidden_answer "Not Provided" = false
  /\ _is_forbidden_answer "N/A" = false
  /\ _is_forbidden_answer "Sorry, I don't know." = false.
Proof.
  split; [ | repeat split; vm_compute; reflexivity ].
  unfold placeholder_phrases.
  repeat (apply Forall_cons; split; [vm_compute; reflexivity | ]).
  apply Forall_nil. trivial.
Qed.

(** What the patterns do match: the phrase between two literal backslash-b
    pairs. *)
Example literal_backslash_b_is_flagged :
  _is_forbidden_answer "\bnot sure\b" = true.
Proof. vm_compute. reflexivity. Qed.

(** With one backslash the same engine reads a word boundary and finds the
    phrases. *)
Example word_boundary_patterns_find_phrases :
  re_search "\bnot provided\b" "not provided" = true
  /\ re_search "\bn/?a\b" "n/a" = true
  /\ re_search "\bn/?a\b" "banana" = false.
Proof. repeat split; vm_compute; reflexivity. Qed.

(** ** Answer repairer *)

Section Find.
Context {A : Type} (f : A -> bool).

Lemma find_first_hit (before : list A) (x : A) (after : list A) :
  Forall (fun y => f y = false) before -> f x = true ->
  List.find f (before ++ x :: after) = Some x.
Proof.
  induction 1 as [ | y before Hy _ IH]; intros Hx; simpl.
  - rewrite Hx. reflexivity.
  - rewrite Hy. apply IH, Hx.
Qed.

Lemma find_no_hit (l : list A) :
  Forall (fun y => f y = false) l -> List.find f l = None.
Proof.
  induction 1 as [ | y l Hy _ IH]; simpl; [reflexivity | ].
  rewrite Hy. exact IH.
Qed.

Lemma find_member (l : list A) (x : A) :
  List.find f l = Some x -> x ∈ l /\ f x = true.
Proof.
  intros Hfind. apply find_some in Hfind as [Hin Hx].
  split; [apply list_elem_of_In, Hin | exact Hx].
Qed.
End Find.

Lemma first_preferred_member (ps opts : list string) (opt : string) :
  first_preferred ps opts = Some opt -> opt ∈ opts.
Proof.
  induction ps as [ | p ps IH]; simpl; [discriminate | ].
  destruct (List.find (pref_matches p) opts) as [hit | ] eqn:Hfind.
  - intros [= <-]. eapply find_member, Hfind.
  - exact IH.
Qed.

(** The search goes through the preferences first: the earliest preference
    that some option matches decides, and the earliest option matching it is
    taken. *)
Lemma first_preferred_search (earlier : list string) (p : string) (later : list string)
    (before : list string) (opt : string) (after : list string) :
  Forall (fun p' => Forall (fun o => pref_matches p' o = false)
                           (before ++ opt :: after)) earlier ->
  Forall (fun o => pref_matches p o = false) before ->
  pref_matches p opt = true ->
  first_preferred (earlier ++ p :: later) (before ++ opt :: after) = Some opt.
Proof.
  intros Hearlier Hbefore Hopt.
  induction Hearlier as [ | p' earlier Hp' _ IH]; simpl.
  - rewrite (find_first_hit _ _ _ _ Hbefore Hopt). reflexivity.
  - rewrite (find_no_hit _ _ Hp'). exact IH.
Qed.

Lemma first_preferred_none (ps opts : list string) :
  Forall (fun p => Forall (fun o => pref_matches p o = false) opts) ps ->
  first_preferred ps opts = None.
Proof.
  induction 1 as [ | p ps Hp _ IH]; simpl; [reflexivity | ].
  rewrite (find_no_hit _ _ Hp). exact IH.
Qed.

Lemma repair_answer_member (question : string) (opts : list string) (intent : string) :
  opts <> [] -> _repair_answer question (Some opts) intent ∈ opts.
Proof.
  intros Hne. unfold _repair_answer.
  destruct opts as [ | first rest]; [congruence | ].
  destruct (first_preferred pref (first :: rest)) as [opt | ] eqn:Hpref.
  - eapply first_preferred_member, Hpref.
  - apply list_elem_of_In. left. reflexivity.
Qed.

Example repair_prefers_by_preference_order :
  _repair_answer "Gender?" (Some ["Decline to answer"; "Male"; " prefer NOT to say "])
                 "eeo.gender" = " prefer NOT to say ".
Proof. vm_compute. reflexivity. Qed.

Example repair_falls_back_to_first_option :
  _repair_answer "Authorized?" (Some ["Yes"; "No"]) "unknown" = "Yes".
Proof. vm_compute. reflexivity. Qed.

(** ** Confidence arithmetic *)

Lemma Qle_bool_false (x y : Q) : Qle_bool x y = false -> (y <= x)%Q.
Proof.
  intros Hfalse. apply Qlt_le_weak, Qnot_le_lt.
  intros Hle. apply Qle_bool_iff in Hle. congruence.
Qed.

Lemma in_range_num (q : Q) : (0.70 <= q)%Q -> (q <= 0.99)%Q -> in_range (FNum q).
Proof. intros Hlo Hhi. exists q. auto. Qed.

Lemma in_range_070 : in_range f070.
Proof. apply in_range_num; unfold Qle; simpl; lia. Qed.

Lemma in_range_075 : in_range f075.
Proof. apply in_range_num; unfold Qle; simpl; lia. Qed.

Lemma in_range_078 : in_range f078.
Proof. apply in_range_num; unfold Qle; simpl; lia. Qed.

Lemma in_range_099 : in_range f099.
Proof. apply in_range_num; unfold Qle; simpl; lia. Qed.

Lemma clamp_in_range (conf : pyfloat) : in_range (clamp conf).
Proof.
  unfold clamp, py_max, py_min.
  destruct conf as [q | [ | ] | ]; simpl;
    try apply in_range_070; try apply in_range_099.
  destruct (Qle_bool q 0.99) eqn:Hhi; simpl; [ | apply in_range_099].
  destruct (Qle_bool q 0.70) eqn:Hlo; simpl; [apply in_range_070 | ].
  apply in_range_num; [apply Qle_bool_false, Hlo | apply Qle_bool_iff, Hhi].
Qed.

Lemma raise_floor_in_range (conf : pyfloat) :
  in_range conf -> in_range (py_max conf f075).
Proof.
  intros Hconf. unfold py_max.
  destruct (flt conf f075); [apply in_range_075 | exact Hconf].
Qed.

Lemma in_range_not_zero (conf : pyfloat) : in_range conf -> is_zero conf = false.
Proof.
  intros (q & -> & Hlo & _). simpl.
  destruct (Qeq_bool q 0) eqn:Hzero; [ | reflexivity].
  apply Qeq_bool_iff in Hzero. rewrite Hzero in Hlo.
  unfold Qle in Hlo. simpl in Hlo. lia.
Qed.

Lemma in_range_usable (conf : pyfloat) : in_range conf -> fge conf f070 = true.
Proof.
  intros (q & -> & Hlo & _). simpl.
  destruct (Qle_bool 0.70 q) eqn:Hle; [reflexivity | ].
  apply Qle_bool_iff in Hlo. congruence.
Qed.

Lemma coerce_confidence_in_range (float_of_str : string -> option pyfloat) (raw_conf : json) :
  in_range (coerce_confidence float_of_str raw_conf).
Proof. apply clamp_in_range. Qed.

(** ** Option matcher *)

Lemma dict_set_values (k v : string) (d : list (string * string)) (P : string -> Prop) :
  P v -> Forall (fun kv => P kv.2) d -> Forall (fun kv => P kv.2) (dict_set k v d).
Proof.
  intros Hv. induction 1 as [ | [k' v'] d Hkv Hd IH]; simpl.
  - apply Forall_cons; split; [exact Hv | apply Forall_nil; trivial].
  - destruct (String.eqb k k').
    + apply Forall_cons; split; [exact Hv | exact Hd].
    + apply Forall_cons; split; [exact Hkv | exact IH].
Qed.

Lemma fold_dict_set_values (key : string -> string) (P : string -> Prop)
    (opts : list string) (d : list (string * string)) :
  Forall P opts -> Forall (fun kv => P kv.2) d ->
  Forall (fun kv => P kv.2) (fold_left (fun d o => dict_set (key o) o d) opts d).
Proof.
  intros Hopts. revert d.
  induction Hopts as [ | o opts Ho _ IH]; intros d Hd; simpl; [exact Hd | ].
  apply IH, dict_set_values; assumption.
Qed.

(** Every value of [lower_map] is one of the options. *)
Lemma lower_map_values (opts : list string) :
  Forall (fun kv => kv.2 ∈ opts) (build_lower_map opts).
Proof.
  unfold build_lower_map.
  apply (fold_dict_set_values (fun o => strip (lower o)) (fun v => v ∈ opts)).
  - apply Forall_forall. auto.
  - apply Forall_nil. trivial.
Qed.

Lemma dict_get_member (k v : string) (d : list (string * string)) :
  dict_get k d = Some v -> (k, v) ∈ d.
Proof.
  induction d as [ | [k' v'] d IH]; simpl; [discriminate | ].
  destruct (String.eqb k k') eqn:Hk.
  - intros [= ->]. apply String.eqb_eq in Hk as ->. apply list_elem_of_In. left. reflexivity.
  - intros Hget. apply list_elem_of_In. right. apply list_elem_of_In, IH, Hget.
Qed.

Lemma dict_get_option (opts : list string) (k v : string) :
  dict_get k (build_lower_map opts) = Some v -> v ∈ opts.
Proof.
  intros Hget. apply dict_get_member in Hget.
  pose proof (lower_map_values opts) as Hall.
  rewrite Forall_forall in Hall. exact (Hall _ Hget).
Qed.

Lemma first_synonym_hit_option (syns opts : list string) (v : string) :
  first_synonym_hit syns (build_lower_map opts) = Some v -> v ∈ opts.
Proof.
  induction syns as [ | syn syns IH]; simpl; [discriminate | ].
  destruct (dict_get syn (build_lower_map opts)) as [opt | ] eqn:Hget.
  - intros [= <-]. eapply dict_get_option, Hget.
  - exact IH.
Qed.

Lemma exact_candidate_option (opts : list string) (raw_answer v : string) :
  exact_candidate (build_lower_map opts) raw_answer = Some v -> v ∈ opts.
Proof. apply dict_get_option. Qed.

Lemma synonym_candidate_option (opts : list string) (raw_answer v : string) :
  synonym_candidate (build_lower_map opts) raw_answer = Some v -> v ∈ opts.
Proof.
  unfold synonym_candidate.
  destruct (synonyms_of _ synonym_map); [apply first_synonym_hit_option | discriminate].
Qed.

Lemma substring_candidate_option (opts : list string) (raw_answer v : string) :
  substring_candidate (build_lower_map opts) raw_answer = Some v -> v ∈ opts.
Proof.
  unfold substring_candidate.
  destruct (List.find _ (build_lower_map opts)) as [[k v'] | ] eqn:Hfind; [ | discriminate].
  intros [= <-]. apply find_member in Hfind as [Hin _].
  pose proof (lower_map_values opts) as Hall.
  rewrite Forall_forall in Hall. exact (Hall _ Hin).
Qed.

(** Whatever the three steps settle on is one of the options. *)
Lemma resolve_candidate_option (opts : list string) (raw_answer v : string) :
  resolve_candidate opts raw_answer = Some v -> v ∈ opts.
Proof.
  unfold resolve_candidate.
  destruct (exact_candidate _ raw_answer) as [c1 | ] eqn:H1;
    destruct (synonym_candidate _ raw_answer) as [c2 | ] eqn:H2;
    destruct (substring_candidate _ raw_answer) as [c3 | ] eqn:H3;
    simpl;
    repeat match goal with
           | |- context [if ?b then _ else _] => destruct b; simpl
           end;
    intros [= <-];
    eauto using exact_candidate_option, synonym_candidate_option,
                substring_candidate_option.
Qed.

(** The answer of the matcher is always one of the options it was given. *)
Lemma option_matcher_member (question : string) (opts : list string) (intent : string)
    (raw_answer : string) (conf : pyfloat) :
  opts <> [] -> (option_matcher question opts intent raw_answer conf).1 ∈ opts.
Proof.
  intros Hne. unfold option_matcher.
  destruct (resolve_candidate opts raw_answer) as [c | ] eqn:Hc.
  - destruct (truthy_str c); simpl.
    + eapply resolve_candidate_option, Hc.
    + apply repair_answer_member, Hne.
  - simpl. apply repair_answer_member, Hne.
Qed.

Lemma option_matcher_in_range (question : string) (opts : list string) (intent : string)
    (raw_answer : string) (conf : pyfloat) :
  in_range conf -> in_range (option_matcher question opts intent raw_answer conf).2.
Proof.
  intros Hconf. unfold option_matcher.
  destruct (resolve_candidate opts raw_answer) as [c | ];
    [destruct (truthy_str c) | ]; simpl; auto using raise_floor_in_range.
Qed.

Lemma str_in_member (x : string) (l : list string) : str_in x l = true <-> x ∈ l.
Proof.
  unfold str_in. rewrite existsb_exists. split.
  - intros (y & Hin & Heq). apply String.eqb_eq in Heq as ->.
    apply list_elem_of_In, Hin.
  - intros Hin. exists x. split; [apply list_elem_of_In, Hin | apply String.eqb_refl].
Qed.

(** ** Predictor *)

Lemma fallbacks_unflagged :
  Forall (fun s => _is_forbidden_answer s = false)
         [SALARY_FALLBACK; ADDITIONAL_FALLBACK; WHYFIT_FALLBACK; GENERIC_FALLBACK].
Proof.
  repeat (apply Forall_cons; split; [vm_compute; reflexivity | ]).
  apply Forall_nil. trivial.
Qed.

(** Without options the repairer answers with one of its four sentences. *)
Lemma repair_answer_free_text_cases (question intent : string)
    (options : option (list string)) :
  match options with Some (_ :: _) => False | _ => True end ->
  _repair_answer question options intent
  ∈ [SALARY_FALLBACK; ADDITIONAL_FALLBACK; WHYFIT_FALLBACK; GENERIC_FALLBACK].
Proof.
  intros Hfree. unfold _repair_answer.
  destruct options as [[ | first rest] | ]; [ | destruct Hfree | ].
  all: destruct (_ || _ || _); [apply list_elem_of_In; simpl; tauto | ].
  all: destruct (_ || _ || _); [apply list_elem_of_In; simpl; tauto | ].
  all: destruct (_ || _ || _); apply list_elem_of_In; simpl; tauto.
Qed.

Lemma repair_answer_free_text (question intent : string) (options : option (list string)) :
  match options with Some (_ :: _) => False | _ => True end ->
  _is_forbidden_answer (_repair_answer question options intent) = false.
Proof.
  intros Hfree.
  pose proof fallbacks_unflagged as Hall. rewrite Forall_forall in Hall.
  apply Hall, repair_answer_free_text_cases, Hfree.
Qed.

Lemma repair_answer_unflagged (request : AIRequest) (intent : string) :
  clean_options request ->
  _is_forbidden_answer (_repair_answer (question request) (options request) intent) = false.
Proof.
  unfold clean_options, supplied_options. intros Hclean.
  destruct (options request) as [[ | first rest] | ] eqn:Hopts;
    try (apply repair_answer_free_text; exact I).
  rewrite Forall_forall in Hclean. apply Hclean.
  apply repair_answer_member. discriminate.
Qed.

Lemma option_matcher_stage_in_range (request : AIRequest) (intent raw_answer : string)
    (conf : pyfloat) :
  in_range conf -> in_range (option_matcher_stage request intent raw_answer conf).2.
Proof.
  intros Hconf. unfold option_matcher_stage.
  destruct (supplied_options request) as [ | first rest]; [exact Hconf | ].
  destruct (negb _); [apply option_matcher_in_range, Hconf | exact Hconf].
Qed.

Lemma option_matcher_stage_unflagged (request : AIRequest) (intent raw_answer : string)
    (conf : pyfloat) :
  clean_options request -> _is_forbidden_answer raw_answer = false ->
  _is_forbidden_answer (option_matcher_stage request intent raw_answer conf).1 = false.
Proof.
  unfold clean_options, option_matcher_stage. intros Hclean Hraw.
  destruct (supplied_options request) as [ | first rest]; [exact Hraw | ].
  destruct (negb _); [ | exact Hraw].
  rewrite Forall_forall in Hclean. apply Hclean.
  apply option_matcher_member. discriminate.
Qed.

Lemma Ok_inj {A : Type} (a b : A) : Ok a = Ok b -> a = b.
Proof. intros [= ->]. reflexivity. Qed.

Lemma normalize_raw_intent_member (raw_intent : json) (question intent : string) :
  normalize_raw_intent raw_intent question = Ok intent -> intent ∈ ALLOWED_INTENTS.
Proof.
  unfold normalize_raw_intent.
  destruct (truthy raw_intent);
    [destruct raw_intent as [ | b | z | f | s | items | fields] | ]; intros Hnorm;
    first [ apply Ok_inj in Hnorm as <-; apply normalize_intent_member
          | exfalso; clear -Hnorm; discriminate Hnorm ].
Qed.

Lemma bind_ok {A B : Type} (r : result A) (k : A -> result B) (b : B) :
  r ≫= k = Ok b -> exists a, r = Ok a /\ k a = Ok b.
Proof. destruct r as [a | e]; [eauto | discriminate]. Qed.

Lemma bind_Ok {A B : Type} (a : A) (k : A -> result B) : Ok a ≫= k = k a.
Proof. reflexivity. Qed.

Ltac step_result H x Hx := apply bind_ok in H as (x & Hx & H).

Section PredictorFacts.

Variable float_of_str : string -> option pyfloat.
Variable bedrock_invoke : AIRequest -> result string.
Variable json_loads : string -> result json.

(** A response of the post-processing has its confidence in range and an
    allowed intent; over clean options its answer is not flagged. *)
Lemma postprocess_sound (request : AIRequest) (ai_data : json) (response : AIResponse) :
  postprocess float_of_str request ai_data = Ok response ->
  in_range (confidence response)
  /\ (exists i, intent response = Some i /\ i ∈ ALLOWED_INTENTS)
  /\ (clean_options request -> _is_forbidden_answer (answer response) = false).
Proof.
  unfold postprocess. intros Hpost.
  step_result Hpost a Ha. step_result Hpost raw_answer Hanswer.
  step_result Hpost raw_conf Hconf. step_result Hpost r Hr.
  step_result Hpost raw_reason Hreason. step_result Hpost raw_intent Hraw.
  step_result Hpost i Hi.
  pose proof (coerce_confidence_in_range float_of_str raw_conf) as Hrange.
  pose proof (normalize_raw_intent_member _ _ _ Hi) as Hintent.
  destruct (_is_forbidden_answer raw_answer) eqn:Hforbidden.
  - apply Ok_inj in Hpost as <-. unfold mkResponse; cbn [answer confidence intent].
    split; [apply raise_floor_in_range, Hrange | ].
    split; [eauto | ]. apply repair_answer_unflagged.
  - pose proof (option_matcher_stage_in_range request i raw_answer _ Hrange) as Hstage.
    pose proof (option_matcher_stage_unflagged request i raw_answer
                  (coerce_confidence float_of_str raw_conf)) as Hans.
    destruct (option_matcher_stage request i raw_answer _) as [final_answer final_conf].
    apply Ok_inj in Hpost as <-.
    unfold mkResponse; cbn [answer confidence intent fst snd] in *.
    split; [exact Hstage | ].
    split; [ | auto].
    case_bool_decide; eauto.
    eexists. split; [reflexivity | ]. apply (bool_decide_unpack _). vm_compute. exact I.
Qed.

Lemma formatting_fallback_sound (request : AIRequest) :
  in_range (confidence (formatting_fallback request))
  /\ (exists i, intent (formatting_fallback request) = Some i /\ i ∈ ALLOWED_INTENTS)
  /\ (clean_options request ->
      _is_forbidden_answer (answer (formatting_fallback request)) = false).
Proof.
  unfold formatting_fallback, mkResponse; cbn [answer confidence intent].
  split; [apply in_range_078 | ].
  split; [eexists; split; [reflexivity | apply normalize_intent_member] | ].
  apply repair_answer_unflagged.
Qed.

Lemma infer_sound (request : AIRequest) (response : AIResponse) :
  infer float_of_str bedrock_invoke json_loads request = Ok response ->
  in_range (confidence response)
  /\ (exists i, intent response = Some i /\ i ∈ ALLOWED_INTENTS)
  /\ (clean_options request -> _is_forbidden_answer (answer response) = false).
Proof.
  unfold infer. intros Hinfer. step_result Hinfer content_text Htext.
  destruct (json_loads _) as [ai_data | e].
  - eapply postprocess_sound, Hinfer.
  - destruct (String.eqb _ _); [ | discriminate].
    apply Ok_inj in Hinfer as <-. apply formatting_fallback_sound.
Qed.

(** Where an answer comes from: the repairer hands back an option of the
    request or one of its own sentences. *)
Lemma repair_answer_settled (request : AIRequest) (intent : string) :
  let repaired := _repair_answer (question request) (options request) intent in
  repaired ∈ supplied_options request
  \/ (repaired <> "" /\ _is_forbidden_answer repaired = false).
Proof.
  cbv zeta. unfold supplied_options.
  destruct (options request) as [[ | first rest] | ].
  - right. split; [apply forbidden_not_empty | ]; apply repair_answer_free_text; exact I.
  - left. apply repair_answer_member. discriminate.
  - right. split; [apply forbidden_not_empty | ]; apply repair_answer_free_text; exact I.
Qed.

(** The option matcher stage hands back an option of the request, or the
    answer it was given. *)
Lemma option_matcher_stage_settled (request : AIRequest) (intent raw_answer : string)
    (conf : pyfloat) :
  _is_forbidden_answer raw_answer = false ->
  let matched := (option_matcher_stage request intent raw_answer conf).1 in
  matched ∈ supplied_options request
  \/ (matched <> "" /\ _is_forbidden_answer matched = false).
Proof.
  intros Hraw. cbv zeta. unfold option_matcher_stage.
  destruct (supplied_options request) as [ | first rest].
  - right. split; [apply forbidden_not_empty | ]; exact Hraw.
  - destruct (negb _).
    + left. apply option_matcher_member. discriminate.
    + right. split; [apply forbidden_not_empty | ]; exact Hraw.
Qed.

Lemma postprocess_settled (request : AIRequest) (ai_data : json) (response : AIResponse) :
  postprocess float_of_str request ai_data = Ok response ->
  answer response ∈ supplied_options request
  \/ (answer response <> "" /\ _is_forbidden_answer (answer response) = false).
Proof.
  unfold postprocess. intros Hpost.
  step_result Hpost a Ha. step_result Hpost raw_answer Hanswer.
  step_result Hpost raw_conf Hconf. step_result Hpost r Hr.
  step_result Hpost raw_reason Hreason. step_result Hpost raw_intent Hraw.
  step_result Hpost i Hi.
  destruct (_is_forbidden_answer raw_answer) eqn:Hforbidden.
  - apply Ok_inj in Hpost as <-. unfold mkResponse; cbn [answer].
    apply repair_answer_settled.
  - pose proof (option_matcher_stage_settled request i raw_answer
                  (coerce_confidence float_of_str raw_conf) Hforbidden) as Hstage.
    cbv zeta in Hstage.
    destruct (option_matcher_stage request i raw_answer _) as [final_answer final_conf].
    apply Ok_inj in Hpost as <-. exact Hstage.
Qed.

Lemma infer_settled (request : AIRequest) (response : AIResponse) :
  infer float_of_str bedrock_invoke json_loads request = Ok response ->
  answer response ∈ supplied_options request
  \/ (answer response <> "" /\ _is_forbidden_answer (answer response) = false).
Proof.
  unfold infer. intros Hinfer. step_result Hinfer content_text Htext.
  destruct (json_loads _) as [ai_data | e].
  - eapply postprocess_settled, Hinfer.
  - destruct (String.eqb _ _); [ | discriminate].
    apply Ok_inj in Hinfer as <-. unfold formatting_fallback, mkResponse; cbn [answer].
    apply repair_answer_settled.
Qed.

End PredictorFacts.

Section PredictAnswerFacts.

Variable Store : Type.
Variable float_of_str : string -> option pyfloat.
Variable bedrock_invoke : AIRequest -> result string.
Variable json_loads : string -> result json.

Local Abbreviation predict_answer :=
  (predict_answer Store float_of_str bedrock_invoke json_loads).

Lemma terminal_zero (response : AIResponse) :
  terminal response -> is_zero (confidence response) = true.
Proof. intros [-> | (e & ->)]; reflexivity. Qed.

(** Every return of the predictor is a terminal response or a sound one. *)
Lemma predict_answer_cases (request : AIRequest) (w : World Store) :
  let response := (predict_answer request w).1 in
  terminal response
  \/ (in_range (confidence response)
      /\ (exists i, intent response = Some i /\ i ∈ ALLOWED_INTENTS)
      /\ (clean_options request -> _is_forbidden_answer (answer response) = false)).
Proof.
  unfold predict_answer.
  destruct (negb _ || negb _); [left; left; reflexivity | ].
  destruct (infer _ _ _ request) as [response | e] eqn:Hinfer; cbn [fst].
  - right. eapply infer_sound, Hinfer.
  - left. right. exists e. reflexivity.
Qed.

(** The predictor talks to the inference service at most once, and only
    after it has found both credentials. *)
Lemma predict_answer_world (request : AIRequest) (w : World Store) :
  (predict_answer request w).2 = w
  \/ (predict_answer request w).2 = log Store (CallBedrock request) w.
Proof.
  unfold predict_answer.
  destruct (negb _ || negb _); [left; reflexivity | ].
  destruct (infer _ _ _ request); right; reflexivity.
Qed.

(** Every return of the predictor that is not terminal carries an option
    of the request or an answer that is neither empty nor flagged. *)
Lemma predict_answer_settled (request : AIRequest) (w : World Store) :
  let response := (predict_answer request w).1 in
  terminal response
  \/ answer response ∈ supplied_options request
  \/ (answer response <> "" /\ _is_forbidden_answer (answer response) = false).
Proof.
  unfold predict_answer.
  destruct (negb _ || negb _); [left; left; reflexivity | ].
  destruct (infer _ _ _ request) as [response | e] eqn:Hinfer; cbn [fst].
  - right. eapply infer_settled, Hinfer.
  - left. right. exists e. reflexivity.
Qed.

(** C1: every return of [predict_answer] other than the two terminal
    responses has its confidence in the closed interval from 0.70 to 0.99,
    and its answer is one of the options of the request, as the request
    spells it, or is non-empty and not flagged by the detector; the returns
    with confidence 0.0 are exactly the two terminal responses.  This holds
    for every request: an empty or flagged answer can only be an option that
    the request itself carries. *)
Theorem predictor_invariant (request : AIRequest) (w : World Store) :
  let response := (predict_answer request w).1 in
  (terminal response
   \/ (in_range (confidence response)
       /\ (answer response ∈ supplied_options request
           \/ (answer response <> ""
               /\ _is_forbidden_answer (answer response) = false))))
  /\ (is_zero (confidence response) = true <-> terminal response).
Proof.
  intros response.
  pose proof (predict_answer_cases request w) as Hcases. cbv zeta in Hcases.
  pose proof (predict_answer_settled request w) as Hsettled. cbv zeta in Hsettled.
  fold response in Hcases, Hsettled.
  destruct Hcases as [Hterminal | (Hrange & _ & _)].
  - split; [left; exact Hterminal | ].
    split; [intros _; exact Hterminal | apply terminal_zero].
  - split.
    + destruct Hsettled as [Hterminal | Hanswer]; [left; exact Hterminal | ].
      right. split; [exact Hrange | exact Hanswer].
    + split; [ | apply terminal_zero].
      rewrite (in_range_not_zero _ Hrange). discriminate.
Qed.

(** C7: when the access key or the secret key is missing from the
    environment, or empty, [predict_answer] returns the response with
    answer [""], confidence 0.0, intent ["unknown"] and the reasoning
    "AWS Credentials Missing", and leaves the world as it found it: the
    inference service is not called. *)
Theorem credentials_missing (request : AIRequest) (w : World Store) :
  truthy_opt (environ w !! "AWS_ACCESS_KEY_ID") = false
  \/ truthy_opt (environ w !! "AWS_SECRET_ACCESS_KEY") = false ->
  let response := (predict_answer request w).1 in
  let w' := (predict_answer request w).2 in
  answer response = ""
  /\ confidence response = FNum 0.0
  /\ intent response = Some "unknown"
  /\ reasoning response = Some "AWS Credentials Missing"
  /\ response = CREDENTIALS_MISSING
  /\ w' = w
  /\ filter is_bedrock (calls w') = filter is_bedrock (calls w).
Proof.
  intros Hmissing. unfold predict_answer.
  assert (Hguard : negb (truthy_opt (environ w !! "AWS_ACCESS_KEY_ID"))
                   || negb (truthy_opt (environ w !! "AWS_SECRET_ACCESS_KEY")) = true).
  { destruct Hmissing as [-> | ->]; [reflexivity | apply orb_true_r]. }
  rewrite Hguard. cbn [fst snd]. repeat split; reflexivity.
Qed.

End PredictAnswerFacts.

(** ** The option matcher on its own *)

Lemma or_empty_strip_text (v : json) :
  text_like v -> exists s, or_empty_strip v = Ok s.
Proof.
  unfold or_empty_strip. intros [-> | (s & ->)]; [eauto | ].
  destruct (truthy (JStr s)); eauto.
Qed.

Lemma normalize_raw_intent_text (v : json) (question : string) :
  text_like v -> exists i, normalize_raw_intent v question = Ok i.
Proof.
  unfold normalize_raw_intent. intros [-> | (s & ->)]; [eauto | ].
  destruct (truthy (JStr s)); eauto.
Qed.

Lemma or_empty_strip_str (s : string) : or_empty_strip (JStr s) = Ok (strip s).
Proof. destruct s; reflexivity. Qed.

(** The scenario with a parsed confidence of 0.70: the synonym step finds
    nothing and the confidence of the response is 0.75, the floor of the
    repair fallback. *)
Lemma authorized_confidence_is_adjusted :
  synonym_candidate (build_lower_map ["Yes"; "No"]) "authorized" = None
  /\ postprocess (fun _ => None) authorized_request
       (JObj [ ("answer", JStr "authorized"); ("confidence", JFloat f070);
               ("reasoning", JStr "Profile states work authorization.");
               ("intent", JStr "workAuthorization.authorizedUS") ])
     = Ok (mkResponse "Yes" f075 "Profile states work authorization."
                      (Some "workAuthorization.authorizedUS"))
  /\ clamp f070 = f070
  /\ f075 <> f070.
Proof.
  split; [vm_compute; reflexivity | ].
  split; [vm_compute; reflexivity | ].
  split; [vm_compute; reflexivity | discriminate].
Qed.

(** C5: in the work-authorisation scenario the answer "authorized" is not
    forbidden and not an option; it is not a key of the synonym table, so the
    synonym step assigns nothing, and the exact and substring steps find
    nothing either.  The answer "Yes" is the first option, returned by the
    repair fallback, and the confidence is raised to at least 0.75. *)
Theorem authorized_resolved_by_repair (intent : string) (conf : pyfloat) :
  let opts := ["Yes"; "No"] in
  let lower_map := build_lower_map opts in
  _is_forbidden_answer "authorized" = false
  /\ str_in "authorized" opts = false
  /\ exact_candidate lower_map "authorized" = None
  /\ synonyms_of "authorized" synonym_map = None
  /\ synonym_candidate lower_map "authorized" = None
  /\ substring_candidate lower_map "authorized" = None
  /\ _repair_answer (question authorized_request) (Some opts) intent = "Yes"
  /\ option_matcher_stage authorized_request intent "authorized" conf
     = ("Yes", py_max conf f075).
Proof.
  repeat split; try (vm_compute; reflexivity).
Qed.

(** ** The /predict endpoint *)

Lemma no_userEmail (request : AIRequest) :
  AIRequest_getattr request "userEmail"
  = Raise (Exn "AttributeError" "'AIRequest' object has no attribute 'userEmail'").
Proof. reflexivity. Qed.

Lemma hard_safety_answer (r : AIResponse) : answer (hard_safety r) = answer r.
Proof. unfold hard_safety. destruct (negb _); reflexivity. Qed.

Lemma hard_safety_confidence (r : AIResponse) : confidence (hard_safety r) = confidence r.
Proof. unfold hard_safety. destruct (negb _); reflexivity. Qed.

Lemma hard_safety_intent (r : AIResponse) :
  (exists i, intent r = Some i /\ i ∈ ALLOWED_INTENTS) ->
  exists i, intent (hard_safety r) = Some i /\ i <> "" /\ i ∈ ALLOWED_INTENTS.
Proof.
  intros (i & Hi & Hallowed). unfold hard_safety. rewrite Hi.
  destruct i as [ | c i']; cbn [truthy_opt truthy_str negb intent].
  - exists "unknown". split; [reflexivity | ]. split; [discriminate | ].
    apply (bool_decide_unpack _). vm_compute. exact I.
  - exists (String c i'). split; [exact Hi | ]. split; [discriminate | exact Hallowed].
Qed.

Section FacadeFacts.

Variable Store : Type.
Variable search_pattern : string -> Store -> result json * Store.
Variable save_pattern : Pattern.t -> json -> Store -> result bool * Store.
Variable PATTERN_MEMORY_CONFIDENCE : pyfloat.
Variable float_of_str : string -> option pyfloat.
Variable bedrock_invoke : AIRequest -> result string.
Variable json_loads : string -> result json.

Local Abbreviation predict_answer :=
  (predict_answer Store float_of_str bedrock_invoke json_loads).
Local Abbreviation save_learned := (save_learned Store save_pattern).
Local Abbreviation predict_miss :=
  (predict_miss Store save_pattern float_of_str bedrock_invoke json_loads).
Local Abbreviation predict_after_search :=
  (predict_after_search Store save_pattern PATTERN_MEMORY_CONFIDENCE float_of_str
                        bedrock_invoke json_loads).
Local Abbreviation predict :=
  (predict Store search_pattern save_pattern PATTERN_MEMORY_CONFIDENCE float_of_str
           bedrock_invoke json_loads).
Local Abbreviation memory_hit := (memory_hit PATTERN_MEMORY_CONFIDENCE).

(** The body of the [try] never reaches [save_pattern]: reading
    [request.userEmail] raises first, in the world it started in. *)
Lemma save_learned_raises (request : AIRequest) (ai_response : AIResponse)
    (w : World Store) :
  exists e, save_learned request ai_response w = (Raise e, w).
Proof.
  unfold save_learned, mbind, M_bind, lift.
  destruct (learned_pattern request ai_response) as [pattern | e]; [ | eauto].
  rewrite no_userEmail. eauto.
Qed.

(** Steps 2 and 3 come down to the predictor followed by the intent guard. *)
Lemma predict_miss_run (request : AIRequest) (w : World Store) :
  predict_miss request w
  = (Ok (hard_safety (predict_answer request w).1), (predict_answer request w).2).
Proof.
  unfold predict_miss, mbind, M_bind, mret, M_ret.
  destruct (predict_answer request w) as [r w']. cbn [fst snd].
  destruct (truthy_str _ && fge _ f070); [ | reflexivity].
  unfold try_except.
  destruct (save_learned_raises request (hard_safety r) w') as (e & ->).
  reflexivity.
Qed.

(** No run of [predict] calls [save_pattern]. *)
Lemma predict_never_saves (request : AIRequest) (w : World Store) :
  filter is_save (calls (predict request w).2) = filter is_save (calls w)
  /\ store (predict request w).2 = (search_pattern (question request) (store w)).2.
Proof.
  unfold predict, mbind, M_bind, call_search.
  destruct (search_pattern (question request) (store w)) as [[memory_match | e] s];
    cbn [fst snd].
  - unfold predict_after_search, mbind, M_bind, lift.
    destruct (memory_hit memory_match) as [[hit | ] | e]; cbn [fst snd mret M_ret].
    + unfold mret, M_ret. cbn [snd calls store with_store log].
      rewrite filter_app. cbn. rewrite app_nil_r. auto.
    + rewrite predict_miss_run. cbn [snd].
      destruct (predict_answer_world Store float_of_str bedrock_invoke json_loads
                  request (with_store Store s (log Store (CallSearch (question request)) w)))
        as [-> | ->];
        cbn [calls store with_store log]; rewrite !filter_app; cbn;
        rewrite ?app_nil_r; auto.
    + cbn [calls store with_store log]. rewrite filter_app. cbn.
      rewrite app_nil_r. auto.
  - cbn [calls store with_store log]. rewrite filter_app. cbn.
    rewrite app_nil_r. auto.
Qed.

(** What a pattern-memory hit is made of. *)
Lemma memory_hit_response (memory_match : json) (hit : AIResponse) :
  memory_hit memory_match = Ok (Some hit) ->
  answer hit <> ""
  /\ confidence hit = PATTERN_MEMORY_CONFIDENCE
  /\ reasoning hit = Some "Retrieved from Pattern Memory"
  /\ exists stored, py_get memory_match "intent" JNull = Ok stored
                    /\ validated_opt_str "intent" stored = Ok (intent hit).
Proof.
  unfold memory_hit. intros Hhit.
  destruct (truthy memory_match); [ | discriminate Hhit].
  step_result Hhit ans Hans.
  destruct (truthy ans) eqn:Htruthy; [ | discriminate Hhit].
  step_result Hhit stored Hstored. step_result Hhit a Ha. step_result Hhit i Hi.
  apply Ok_inj in Hhit. injection Hhit as <-.
  unfold mkResponse; cbn [answer confidence reasoning intent].
  split.
  - destruct ans; try discriminate Ha. apply Ok_inj in Ha as <-.
    intros ->. discriminate Htruthy.
  - repeat split. exists stored. rewrite Hi. auto.
Qed.

(** C3: a response of [predict] with a non-empty answer that came from the
    predictor has confidence at least 0.70 and an intent that is a non-empty
    member of the Allowed Intent Set.  A response served from pattern memory
    is returned before the intent guard: it carries the configured
    pattern-memory confidence and the stored intent as the store gave it. *)
Theorem predict_response_invariant (request : AIRequest) (w : World Store)
    (memory_match : json) (response : AIResponse) :
  (search_pattern (question request) (store w)).1 = Ok memory_match ->
  (predict request w).1 = Ok response ->
  answer response <> "" ->
  match memory_hit memory_match with
  | Ok (Some hit) =>
      response = hit
      /\ confidence response = PATTERN_MEMORY_CONFIDENCE
      /\ exists stored, py_get memory_match "intent" JNull = Ok stored
                        /\ validated_opt_str "intent" stored = Ok (intent response)
  | _ =>
      in_range (confidence response)
      /\ fge (confidence response) f070 = true
      /\ exists i, intent response = Some i /\ i <> "" /\ i ∈ ALLOWED_INTENTS
  end.
Proof.
  intros Hsearch Hpredict Hanswer.
  unfold predict, mbind, M_bind, call_search in Hpredict.
  destruct (search_pattern (question request) (store w)) as [found s].
  cbn [fst] in Hsearch. subst found.
  unfold predict_after_search, mbind, M_bind, lift in Hpredict.
  destruct (memory_hit memory_match) as [[hit | ] | e] eqn:Hhit.
  - unfold mret, M_ret in Hpredict. cbn [fst] in Hpredict.
    apply Ok_inj in Hpredict as <-.
    destruct (memory_hit_response _ _ Hhit) as (_ & Hconf & _ & Hintent).
    auto.
  - rewrite predict_miss_run in Hpredict. cbn [fst] in Hpredict.
    apply Ok_inj in Hpredict as <-.
    rewrite hard_safety_answer in Hanswer. rewrite hard_safety_confidence.
    match type of Hanswer with
    | answer (_ ?w').1 <> _ =>
        pose proof (predict_answer_cases Store float_of_str bedrock_invoke json_loads
                      request w') as Hcases
    end.
    cbv zeta in Hcases.
    destruct Hcases as [[Hcm | (e & Herr)] | (Hrange & Hintent & _)].
    + rewrite Hcm in Hanswer. exfalso. apply Hanswer. reflexivity.
    + rewrite Herr in Hanswer. exfalso. apply Hanswer. reflexivity.
    + split; [exact Hrange | ]. split; [apply in_range_usable, Hrange | ].
      apply hard_safety_intent, Hintent.
  - cbn [fst] in Hpredict. discriminate Hpredict.
Qed.

End FacadeFacts.

Lemma nothing_to_serve_no_hit (PATTERN_MEMORY_CONFIDENCE : pyfloat)
    (fields : list (string * json)) :
  nothing_to_serve fields -> memory_hit PATTERN_MEMORY_CONFIDENCE (JObj fields) = Ok None.
Proof.
  intros Hshape. unfold memory_hit.
  assert (Hfields : truthy (JObj fields) = true).
  { destruct fields; [ | reflexivity].
    destruct Hshape as [Hempty | (first & rest & Hfirst & _)]; discriminate. }
  rewrite Hfields. unfold memory_answer, py_get.
  destruct Hshape as [-> | (first & rest & -> & Hvariants & Hcanonical)];
    cbn [from_option id]; rewrite !bind_Ok; cbn [truthy py_first]; [reflexivity | ].
  rewrite bind_Ok.
  destruct Hvariants as [-> | ->], Hcanonical as [-> | ->];
    cbn [from_option id]; rewrite !bind_Ok; reflexivity.
Qed.

(** C10: when the store answers with a match that has nothing to serve,
    [predict] does not return a pattern-memory response.  It runs
    [predict_answer] on the request, in the world the lookup left, and
    returns the predictor's response, passed through the intent guard, and
    the predictor's world; this is the outcome, response and world, of the
    run in which the store answers [None]. *)
Theorem empty_memory_falls_through (Store : Type)
    (search_pattern search_miss : string -> Store -> result json * Store)
    (save_pattern : Pattern.t -> json -> Store -> result bool * Store)
    (PATTERN_MEMORY_CONFIDENCE : pyfloat)
    (float_of_str : string -> option pyfloat)
    (bedrock_invoke : AIRequest -> result string)
    (json_loads : string -> result json)
    (request : AIRequest) (fields : list (string * json)) (w : World Store) :
  nothing_to_serve fields ->
  (search_pattern (question request) (store w)).1 = Ok (JObj fields) ->
  search_miss (question request) (store w)
  = (Ok JNull, (search_pattern (question request) (store w)).2) ->
  let after_search :=
    with_store Store (search_pattern (question request) (store w)).2
               (log Store (CallSearch (question request)) w) in
  let predicted :=
    predict_answer Store float_of_str bedrock_invoke json_loads request after_search in
  memory_hit PATTERN_MEMORY_CONFIDENCE (JObj fields) = Ok None
  /\ predict Store search_pattern save_pattern PATTERN_MEMORY_CONFIDENCE float_of_str
             bedrock_invoke json_loads request w
     = (Ok (hard_safety predicted.1), predicted.2)
  /\ predict Store search_pattern save_pattern PATTERN_MEMORY_CONFIDENCE float_of_str
             bedrock_invoke json_loads request w
     = predict Store search_miss save_pattern PATTERN_MEMORY_CONFIDENCE float_of_str
               bedrock_invoke json_loads request w
  /\ predict Store search_pattern save_pattern PATTERN_MEMORY_CONFIDENCE float_of_str
             bedrock_invoke json_loads request w
     = predict_miss Store save_pattern float_of_str bedrock_invoke json_loads request
         after_search.
Proof.
  intros Hshape Hfound Hmiss after_search predicted.
  pose proof (nothing_to_serve_no_hit PATTERN_MEMORY_CONFIDENCE fields Hshape) as Hhit.
  split; [exact Hhit | ].
  assert (Hfall : predict Store search_pattern save_pattern PATTERN_MEMORY_CONFIDENCE
                          float_of_str bedrock_invoke json_loads request w
                  = predict_miss Store save_pattern float_of_str bedrock_invoke
                                 json_loads request after_search).
  { subst after_search. unfold predict, mbind, M_bind, call_search.
    destruct (search_pattern (question request) (store w)) as [found s].
    cbn [fst snd] in *. subst found.
    unfold predict_after_search, mbind, M_bind, lift. rewrite Hhit. reflexivity. }
  split; [rewrite Hfall; apply predict_miss_run | ].
  split; [ | exact Hfall].
  rewrite Hfall. subst after_search.
  unfold predict, mbind, M_bind, call_search. rewrite Hmiss.
  destruct (search_pattern (question request) (store w)) as [found s].
  cbn [fst snd]. reflexivity.
Qed.

(** A stored match with an empty [answerMappings], credentials set, and a
    model reply that answers "Yes": the response is the one built from the
    reply, and the lookup is followed by the predictor's call. *)
Lemma empty_memory_falls_through_witness :
  let outcome :=
    predict shelf (search_finds stored_empty) save_appends (FNum 0.95) no_float
            (replies "```json ... ```") (decodes_to authorized_reply)
            authorized_request configured_world in
  outcome.1 = Ok (mkResponse "Yes" (FNum 0.9) "Profile states work authorization."
                             (Some "workAuthorization.authorizedUS"))
  /\ calls outcome.2
     = [ CallSearch (question authorized_request); CallBedrock authorized_request ].
Proof.
  cbv zeta.
  rewrite (proj1 (proj2 (empty_memory_falls_through shelf (search_finds stored_empty)
                           search_none save_appends (FNum 0.95) no_float
                           (replies "```json ... ```") (decodes_to authorized_reply)
                           authorized_request
                           [ ("intent", JStr "personal.city");
                             ("answerMappings", JArr []) ]
                           configured_world
                           (or_introl eq_refl) eq_refl eq_refl))).
  split; vm_compute; reflexivity.
Defined.

(** ** Runs in concrete worlds *)

(** A dropdown with an empty first entry and a reply that is not JSON: the
    predictor returns the empty answer with confidence 0.78, which is neither
    of the terminal responses. *)
Lemma blank_option_is_returned :
  let response :=
    (predict_answer shelf no_float (replies "The answer is Yes.") undecodable
                    placeholder_dropdown_request configured_world).1 in
  response = mkResponse "" f078 "Fallback response due to formatting issue."
                        (Some "unknown")
  /\ ~ terminal response
  /\ answer response = ""
  /\ _is_forbidden_answer (answer response) = true.
Proof.
  assert (Hrun : (predict_answer shelf no_float (replies "The answer is Yes.") undecodable
                    placeholder_dropdown_request configured_world).1
                 = mkResponse "" f078 "Fallback response due to formatting issue."
                              (Some "unknown"))
    by (vm_compute; reflexivity).
  cbv zeta. rewrite Hrun.
  split; [reflexivity | ].
  split; [ | split; reflexivity].
  intros [Hcm | (e & Herr)].
  - apply (f_equal confidence) in Hcm. discriminate Hcm.
  - apply (f_equal confidence) in Herr. discriminate Herr.
Qed.

Lemma credentials_missing_witness :
  (predict_answer shelf no_float (replies "unused") undecodable
                  authorized_request bare_world).1
  = CREDENTIALS_MISSING
  /\ (predict_answer shelf no_float (replies "unused") undecodable
                     authorized_request bare_world).2
     = bare_world.
Proof.
  assert (Hmissing : truthy_opt (environ bare_world !! "AWS_ACCESS_KEY_ID") = false
                     \/ truthy_opt (environ bare_world !! "AWS_SECRET_ACCESS_KEY") = false)
    by (left; vm_compute; reflexivity).
  destruct (credentials_missing shelf no_float (replies "unused") undecodable
              authorized_request bare_world Hmissing)
    as (_ & _ & _ & _ & Hresponse & Hworld & _).
  split; [exact Hresponse | exact Hworld].
Defined.

(** Two pattern-memory hits: the response carries the intent the store holds,
    here one outside the Allowed Intent Set and here none at all. *)
Lemma memory_hit_keeps_stored_intent :
  (predict shelf (search_finds stored_uploaded) save_appends (FNum 0.95) no_float
           (replies "unused") undecodable authorized_request configured_world).1
  = Ok (mkResponse "Yes" (FNum 0.95) "Retrieved from Pattern Memory"
                   (Some "visa_status"))
  /\ ("visa_status" ∉ ALLOWED_INTENTS)
  /\ (predict shelf (search_finds stored_without_intent) save_appends (FNum 0.95)
              no_float (replies "unused") undecodable authorized_request
              configured_world).1
     = Ok (mkResponse "Yes" (FNum 0.95) "Retrieved from Pattern Memory" None).
Proof.
  split; [vm_compute; reflexivity | ].
  split; [ | vm_compute; reflexivity].
  apply (bool_decide_unpack _). vm_compute. exact I.
Qed.

Lemma predict_response_invariant_witness :
  exists i,
    intent (mkResponse "Yes" (FNum 0.9) "Profile states work authorization."
                       (Some "workAuthorization.authorizedUS")) = Some i
    /\ i <> "" /\ i ∈ ALLOWED_INTENTS.
Proof.
  assert (Hsearch : (search_none (question authorized_request)
                                 (store configured_world)).1 = Ok JNull)
    by reflexivity.
  assert (Hrun : (predict shelf search_none save_appends (FNum 0.95) no_float
                          (replies "```json ... ```") (decodes_to authorized_reply)
                          authorized_request configured_world).1
                 = Ok (mkResponse "Yes" (FNum 0.9) "Profile states work authorization."
                                  (Some "workAuthorization.authorizedUS")))
    by (vm_compute; reflexivity).
  assert (Hanswer : answer (mkResponse "Yes" (FNum 0.9)
                              "Profile states work authorization."
                              (Some "workAuthorization.authorizedUS")) <> "")
    by discriminate.
  exact (proj2 (proj2 (predict_response_invariant shelf search_none save_appends
                         (FNum 0.95) no_float (replies "```json ... ```")
                         (decodes_to authorized_reply) authorized_request
                         configured_world JNull _ Hsearch Hrun Hanswer))).
Defined.

(** C6: a miss with a usable result.  The store is empty, the model answers
    "Yes" with confidence 0.9, and [save_pattern] would append whatever it is
    given; the response is returned, the pattern is built, and the store is
    still empty afterwards: [save_pattern] is not among the calls made,
    because reading [request.userEmail] raised inside the [try]. *)
Theorem learned_pattern_not_persisted :
  let run := predict shelf search_none save_appends (FNum 0.95) no_float
                     (replies "```json ... ```") (decodes_to authorized_reply)
                     authorized_request configured_world in
  let response := mkResponse "Yes" (FNum 0.9) "Profile states work authorization."
                             (Some "workAuthorization.authorizedUS") in
  run.1 = Ok response
  /\ (truthy_str (answer response) && fge (confidence response) f070) = true
  /\ (exists pattern, learned_pattern authorized_request response = Ok pattern)
  /\ AIRequest_getattr authorized_request "userEmail"
     = Raise (Exn "AttributeError" "'AIRequest' object has no attribute 'userEmail'")
  /\ store run.2 = []
  /\ calls run.2 = [ CallSearch (question authorized_request);
                     CallBedrock authorized_request ].
Proof.
  cbv zeta.
  split; [vm_compute; reflexivity | ].
  split; [vm_compute; reflexivity | ].
  split; [eexists; reflexivity | ].
  split; [reflexivity | ].
  split; vm_compute; reflexivity.
Qed.

(** * Further properties of the code *)

(** ** More on the Python string primitives *)

Lemma contains_char_cons (a c : ascii) (s : string) :
  contains (String a EmptyString) (String c s)
  = Ascii.eqb c a || contains (String a EmptyString) s.
Proof.
  cbn [contains String.prefix].
  destruct (ascii_dec a c) as [<- | Hne].
  - rewrite Ascii.eqb_refl. destruct s; reflexivity.
  - destruct (Ascii.eqb_spec c a) as [-> | _]; [ | reflexivity].
    exfalso. apply Hne. reflexivity.
Qed.

Lemma remove_char_gone (a : ascii) (s : string) :
  contains (String a EmptyString) (remove_char a s) = false.
Proof.
  induction s as [ | c s IH]; [reflexivity | ].
  cbn [remove_char]. destruct (Ascii.eqb c a) eqn:Hc; [exact IH | ].
  rewrite contains_char_cons, Hc. exact IH.
Qed.

Lemma remove_char_keeps_absent (a b : ascii) (s : string) :
  contains (String a EmptyString) s = false ->
  contains (String a EmptyString) (remove_char b s) = false.
Proof.
  induction s as [ | c s IH]; [reflexivity | ].
  rewrite contains_char_cons. intros Hs. apply orb_false_iff in Hs as [Hc Hs].
  cbn [remove_char]. destruct (Ascii.eqb c b); [auto | ].
  rewrite contains_char_cons, Hc. auto.
Qed.

Lemma is_space_lower_char (c : ascii) : is_space (lower_char c) = is_space c.
Proof. destruct c as [[] [] [] [] [] [] [] []]; reflexivity. Qed.

Lemma lower_char_idempotent (c : ascii) : lower_char (lower_char c) = lower_char c.
Proof. destruct c as [[] [] [] [] [] [] [] []]; reflexivity. Qed.

Lemma lower_idempotent (s : string) : lower (lower s) = lower s.
Proof.
  induction s as [ | c s IH]; [reflexivity | ].
  cbn [lower]. rewrite lower_char_idempotent, IH. reflexivity.
Qed.

Lemma lstrip_lower (s : string) : lstrip (lower s) = lower (lstrip s).
Proof.
  induction s as [ | c s IH]; [reflexivity | ].
  cbn [lower lstrip]. rewrite is_space_lower_char.
  destruct (is_space c); [exact IH | reflexivity].
Qed.

Lemma rstrip_lower (s : string) : rstrip (lower s) = lower (rstrip s).
Proof.
  induction s as [ | c s IH]; [reflexivity | ].
  cbn [lower rstrip]. rewrite IH, is_space_lower_char.
  destruct (rstrip s) as [ | c' t]; cbn [lower]; [ | reflexivity].
  destruct (is_space c); reflexivity.
Qed.

Lemma strip_lower (s : string) : strip (lower s) = lower (strip s).
Proof. unfold strip. rewrite lstrip_lower, rstrip_lower. reflexivity. Qed.

Lemma rstrip_idempotent (s : string) : rstrip (rstrip s) = rstrip s.
Proof.
  induction s as [ | c s IH]; [reflexivity | ].
  cbn [rstrip]. destruct (rstrip s) as [ | c' t] eqn:Hs.
  - destruct (is_space c) eqn:Hc; [reflexivity | ].
    cbn [rstrip]. rewrite Hc. reflexivity.
  - cbn [rstrip]. cbn [rstrip] in IH. rewrite IH. reflexivity.
Qed.

(** Trimming on the right leaves a first character that is no space where
    it is. *)
Lemma rstrip_keeps_head (c : ascii) (s : string) :
  is_space c = false -> exists t, rstrip (String c s) = String c t.
Proof.
  intros Hc. cbn [rstrip]. destruct (rstrip s) as [ | c' t]; [ | eauto].
  rewrite Hc. eauto.
Qed.

Lemma lstrip_head (s : string) :
  lstrip s = EmptyString \/ exists c t, lstrip s = String c t /\ is_space c = false.
Proof.
  induction s as [ | c s IH]; [left; reflexivity | ].
  cbn [lstrip]. destruct (is_space c) eqn:Hc; [exact IH | ].
  right. exists c, s. split; [reflexivity | exact Hc].
Qed.

Lemma strip_idempotent (s : string) : strip (strip s) = strip s.
Proof.
  unfold strip.
  destruct (lstrip_head s) as [-> | (c & t & -> & Hc)]; [reflexivity | ].
  destruct (rstrip_keeps_head c t Hc) as (t' & Ht). rewrite Ht.
  cbn [lstrip]. rewrite Hc, <- Ht. apply rstrip_idempotent.
Qed.

Lemma lstrip_all_space (s : string) :
  Forall (fun c => is_space c = true) (list_ascii_of_string s) -> lstrip s = "".
Proof.
  induction s as [ | c s IH]; [reflexivity | ].
  cbn [list_ascii_of_string lstrip]. intros Hall.
  apply Forall_cons in Hall as [-> Hall]. auto.
Qed.

(** ** Intent normaliser, continued *)

Lemma allowed_intent_fixed (a question : string) :
  a ∈ ALLOWED_INTENTS -> _normalize_intent (Some a) question = a.
Proof.
  intros Ha. unfold ALLOWED_INTENTS in Ha. set_unfold in Ha.
  destruct_or!; subst a; vm_compute; reflexivity.
Qed.

(** X1: normalising is idempotent.  What [_normalize_intent] returns, fed
    back to it as the raw intent with any question at all, comes back
    unchanged: a normalised intent is never re-inferred from question
    text. *)
Theorem normalize_intent_idempotent (raw_intent : option string)
    (question question' : string) :
  _normalize_intent (Some (_normalize_intent raw_intent question)) question'
  = _normalize_intent raw_intent question.
Proof. apply allowed_intent_fixed, normalize_intent_member. Qed.

(** X2: the key [_normalize_intent] looks up in [INTENT_NORMALIZATION] never
    contains a space, a hyphen or an underscore, whatever the raw intent.
    The table's row for "why_fit" can therefore never be the one that is
    hit; an intent spelled that way is served by the row "whyfit". *)
Theorem normalization_key_has_no_separator (raw : string) :
  let key := remove_char "_" (remove_char "-" (remove_char " " (lower raw))) in
  contains " " key = false
  /\ contains "-" key = false
  /\ contains "_" key = false
  /\ key <> "why_fit"
  /\ INTENT_NORMALIZATION !! "why_fit" = Some "experience.whyFit".
Proof.
  intros key.
  assert (Hunderscore : contains "_" key = false) by apply remove_char_gone.
  split; [ | split; [ | split; [exact Hunderscore | split]]].
  - subst key. do 2 apply remove_char_keeps_absent. apply remove_char_gone.
  - subst key. apply remove_char_keeps_absent, remove_char_gone.
  - intros Hkey. rewrite Hkey in Hunderscore. discriminate Hunderscore.
  - vm_compute. reflexivity.
Qed.

(** ** Forbidden-answer detector, continued *)

(** X3: an answer made of whitespace only, the empty answer included, is
    always flagged. *)
Theorem whitespace_is_forbidden (ans : string) :
  Forall (fun c => is_space c = true) (list_ascii_of_string ans) ->
  _is_forbidden_answer ans = true.
Proof.
  intros Hall. apply blank_is_forbidden.
  unfold strip. rewrite (lstrip_all_space _ Hall). reflexivity.
Qed.

Lemma whitespace_is_forbidden_witness :
  _is_forbidden_answer (String " " (String (ascii_of_nat 9) (String (ascii_of_nat 10) "")))
  = true.
Proof.
  apply whitespace_is_forbidden.
  repeat (apply Forall_cons; split; [reflexivity | ]).
  apply Forall_nil. exact I.
Defined.

(** X4: the verdict of the detector does not depend on the case of the
    answer nor on whitespace around it: the answer, its trimmed form and its
    lowercased form are flagged alike. *)
Theorem detector_ignores_case_and_padding (ans : string) :
  _is_forbidden_answer (strip ans) = _is_forbidden_answer ans
  /\ _is_forbidden_answer (lower ans) = _is_forbidden_answer ans.
Proof.
  unfold _is_forbidden_answer. split.
  - rewrite strip_idempotent. reflexivity.
  - rewrite strip_lower, lower_idempotent. reflexivity.
Qed.

(** ** Answer repairer, continued *)

(** X6: the repairer has two ranges and no other.  Given a non-empty option
    list it returns one of the options; given none, or the empty list, it
    returns one of its four fixed sentences, which is neither empty nor
    flagged, whatever the question and the intent. *)
Theorem repair_answer_range (question intent : string) (options : option (list string)) :
  match options with
  | Some (first :: rest) => _repair_answer question options intent ∈ first :: rest
  | _ =>
      _repair_answer question options intent
      ∈ [SALARY_FALLBACK; ADDITIONAL_FALLBACK; WHYFIT_FALLBACK; GENERIC_FALLBACK]
      /\ _repair_answer question options intent <> ""
      /\ _is_forbidden_answer (_repair_answer question options intent) = false
  end.
Proof.
  destruct options as [[ | first rest] | ].
  - split; [apply repair_answer_free_text_cases; exact I | ].
    split; [apply forbidden_not_empty | ]; apply repair_answer_free_text; exact I.
  - apply repair_answer_member. discriminate.
  - split; [apply repair_answer_free_text_cases; exact I | ].
    split; [apply forbidden_not_empty | ]; apply repair_answer_free_text; exact I.
Qed.

(** ** Option matcher, continued *)

Lemma fge_refl_num (q : Q) : fge (FNum q) (FNum q) = true.
Proof.
  simpl. destruct (Qle_bool q q) eqn:Hq; [reflexivity | ].
  assert (Hle : Qle_bool q q = true) by apply Qle_bool_iff, Qle_refl.
  congruence.
Qed.

Lemma raise_floor_not_lower (conf : pyfloat) :
  in_range conf -> fge (py_max conf f075) conf = true.
Proof.
  intros (q & -> & _ & _). unfold py_max.
  destruct (flt (FNum q) f075) eqn:Hlt; [ | apply fge_refl_num].
  simpl in Hlt. apply negb_true_iff, Qle_bool_false, Qle_bool_iff in Hlt.
  simpl. rewrite Hlt. reflexivity.
Qed.

(** X7: the option matcher answers with one of the options it was given,
    always.  Either a step found a candidate, and the confidence is the one
    passed in, or the repairer chose, and the confidence is raised to 0.75
    when it was below; a confidence in range stays in range and is never
    lowered. *)
Theorem option_matcher_result (question : string) (opts : list string)
    (intent raw_answer : string) (conf : pyfloat) :
  opts <> [] ->
  let matched := option_matcher question opts intent raw_answer conf in
  matched.1 ∈ opts
  /\ ((resolve_candidate opts raw_answer = Some matched.1 /\ matched.2 = conf)
      \/ (matched.1 = _repair_answer question (Some opts) intent
          /\ matched.2 = py_max conf f075))
  /\ (in_range conf -> in_range matched.2 /\ fge matched.2 conf = true).
Proof.
  intros Hne matched.
  split; [apply option_matcher_member, Hne | ].
  split.
  - subst matched. unfold option_matcher.
    destruct (resolve_candidate opts raw_answer) as [c | ]; [ | right; split; reflexivity].
    destruct (truthy_str c); [left | right]; split; reflexivity.
  - intros Hconf. split; [apply option_matcher_in_range, Hconf | ].
    subst matched. unfold option_matcher.
    destruct (resolve_candidate opts raw_answer) as [c | ];
      [destruct (truthy_str c) | ]; cbn [snd];
      try apply raise_floor_not_lower, Hconf.
    destruct Hconf as (q & -> & _). apply fge_refl_num.
Qed.

Lemma option_matcher_result_witness :
  (option_matcher "Gender" ["Man"; "Woman"; "Decline to answer"] "eeo.gender"
                  "male" (FNum 0.8)).1
  ∈ ["Man"; "Woman"; "Decline to answer"].
Proof.
  assert (Hne : ["Man"; "Woman"; "Decline to answer"] <> []) by discriminate.
  exact (proj1 (option_matcher_result "Gender" ["Man"; "Woman"; "Decline to answer"]
                  "eeo.gender" "male" (FNum 0.8) Hne)).
Defined.

Lemma dict_get_set (k k' v : string) (d : list (string * string)) :
  dict_get k (dict_set k' v d) = if String.eqb k k' then Some v else dict_get k d.
Proof.
  induction d as [ | [k0 v0] d IH]; cbn [dict_set dict_get].
  - destruct (String.eqb k k'); reflexivity.
  - destruct (String.eqb k' k0) eqn:Hk0; cbn [dict_get].
    + apply String.eqb_eq in Hk0 as <-. destruct (String.eqb k k'); reflexivity.
    + rewrite IH. destruct (String.eqb k k0) eqn:Hk; [ | reflexivity].
      apply String.eqb_eq in Hk as ->. rewrite String.eqb_sym, Hk0. reflexivity.
Qed.

Lemma find_split {A : Type} (f : A -> bool) (l : list A) (x : A) :
  List.find f l = Some x ->
  exists before after,
    l = (before ++ x :: after)%list /\ Forall (fun y => f y = false) before /\ f x = true.
Proof.
  induction l as [ | y l IH]; cbn [List.find]; [discriminate | ].
  destruct (f y) eqn:Hy.
  - intros [= ->]. exists [], l. split; [reflexivity | ].
    split; [apply Forall_nil; exact I | exact Hy].
  - intros Hfind. destruct (IH Hfind) as (before & after & -> & Hbefore & Hx).
    exists (y :: before), after. split; [reflexivity | ].
    split; [apply Forall_cons; split; [exact Hy | exact Hbefore] | exact Hx].
Qed.

(** ** Confidence, continued *)

Lemma Qlt_bool_false (x y : Q) : (x < y)%Q -> Qle_bool y x = false.
Proof.
  intros Hlt. destruct (Qle_bool y x) eqn:Hle; [ | reflexivity].
  apply Qle_bool_iff in Hle. exfalso. exact (Qlt_not_le _ _ Hlt Hle).
Qed.

Lemma clamp_low (q : Q) : (q <= 0.70)%Q -> clamp (FNum q) = f070.
Proof.
  intros Hq. unfold clamp, py_max, py_min. cbn [flt f099 f070].
  assert (Hq99 : Qle_bool q 0.99 = true).
  { apply Qle_bool_iff. eapply Qle_trans; [exact Hq | ]. unfold Qle. simpl. lia. }
  rewrite Hq99. cbn [negb]. apply Qle_bool_iff in Hq. rewrite Hq. reflexivity.
Qed.

Lemma clamp_mid (q : Q) : (0.70 < q)%Q -> (q <= 0.99)%Q -> clamp (FNum q) = FNum q.
Proof.
  intros Hlo Hhi. unfold clamp, py_max, py_min. cbn [flt f099 f070].
  apply Qle_bool_iff in Hhi. rewrite Hhi. cbn [negb].
  rewrite (Qlt_bool_false _ _ Hlo). reflexivity.
Qed.

Lemma clamp_high (q : Q) : (0.99 < q)%Q -> clamp (FNum q) = f099.
Proof.
  intros Hq. unfold clamp, py_max, py_min. cbn [flt f099 f070].
  rewrite (Qlt_bool_false _ _ Hq). reflexivity.
Qed.

Lemma clamp_idempotent (conf : pyfloat) : clamp (clamp conf) = clamp conf.
Proof.
  destruct conf as [q | [ | ] | ]; try reflexivity.
  destruct (Qlt_le_dec 0.70 q) as [Hlo | Hlo].
  - destruct (Qlt_le_dec 0.99 q) as [Hhi | Hhi].
    + rewrite (clamp_high q Hhi). reflexivity.
    + rewrite (clamp_mid q Hlo Hhi). apply clamp_mid; assumption.
  - rewrite (clamp_low q Hlo). reflexivity.
Qed.

(** X9: whatever the reply holds under "confidence", the coerced confidence
    lies between 0.70 and 0.99.  A number in that interval is kept as it is,
    a number at or below 0.70 and NaN give 0.70, a number above 0.99 gives
    0.99; null, a list or an object count as 0.75; clamping a second time
    changes nothing. *)
Theorem coerce_confidence_total (float_of_str : string -> option pyfloat) (raw_conf : json) :
  in_range (coerce_confidence float_of_str raw_conf)
  /\ (forall q, raw_conf = JFloat (FNum q) ->
        coerce_confidence float_of_str raw_conf
        = if Qle_bool q 0.70 then f070
          else if Qle_bool q 0.99 then FNum q else f099)
  /\ (raw_conf = JFloat FNaN -> coerce_confidence float_of_str raw_conf = f070)
  /\ (match raw_conf with JNull | JArr _ | JObj _ => True | _ => False end ->
      coerce_confidence float_of_str raw_conf = f075)
  /\ clamp (coerce_confidence float_of_str raw_conf)
     = coerce_confidence float_of_str raw_conf.
Proof.
  split; [apply clamp_in_range | ].
  split.
  { intros q ->. unfold coerce_confidence. cbn [py_float].
    destruct (Qle_bool q 0.70) eqn:Hlo.
    - apply clamp_low, Qle_bool_iff, Hlo.
    - apply Qle_bool_false in Hlo as Hle.
      destruct (Qle_bool q 0.99) eqn:Hhi.
      + apply clamp_mid; [ | apply Qle_bool_iff, Hhi].
        apply Qnot_le_lt. intros Hq. apply Qle_bool_iff in Hq. congruence.
      + apply clamp_high, Qnot_le_lt. intros Hq. apply Qle_bool_iff in Hq. congruence. }
  split; [intros ->; reflexivity | ].
  split; [destruct raw_conf; intros []; reflexivity | ].
  apply clamp_idempotent.
Qed.

(** ** Post-processing of a decoded reply *)

Lemma or_empty_strip_ok (v : json) (s : string) :
  or_empty_strip v = Ok s -> text_like v.
Proof.
  unfold or_empty_strip, text_like. intros Hs.
  destruct (truthy v) eqn:Htruthy; [ | left; reflexivity].
  destruct v; try discriminate Hs. right. eauto.
Qed.

Lemma normalize_raw_intent_ok (v : json) (question i : string) :
  normalize_raw_intent v question = Ok i -> text_like v.
Proof.
  unfold normalize_raw_intent, text_like. intros Hi.
  destruct (truthy v) eqn:Htruthy; [ | left; reflexivity].
  destruct v as [ | b | z | f | s | items | fields];
    first [right; eexists; reflexivity | exfalso; clear -Hi; discriminate Hi].
Qed.

Lemma postprocess_tail_ok (float_of_str : string -> option pyfloat) (request : AIRequest)
    (raw_answer raw_reason i : string) (raw_conf : json) :
  exists response,
    (let conf := coerce_confidence float_of_str raw_conf in
     if _is_forbidden_answer raw_answer then
       let repaired := _repair_answer (question request) (options request) i in
       Ok (mkResponse repaired (py_max conf f075)
                      "Repaired answer to avoid placeholders." (Some i))
     else
       let '(raw_answer, conf) := option_matcher_stage request i raw_answer conf in
       let intent := if bool_decide (i ∈ ALLOWED_INTENTS) then i else "unknown" in
       Ok (mkResponse raw_answer conf
                      (if truthy_str raw_reason then raw_reason
                       else "Answer chosen to maximize hiring chances.")
                      (Some intent)))
    = Ok response.
Proof.
  cbv zeta. destruct (_is_forbidden_answer raw_answer); [eauto | ].
  destruct (option_matcher_stage request i raw_answer _). eauto.
Qed.

(** X10: post-processing succeeds exactly on the replies it can read: the
    decoded value is an object and each of "answer", "reasoning" and "intent"
    is absent, false or a string.  On every other reply (a list, a bare
    string, a number where text was expected) it raises, and the predictor
    answers with the ServiceError response instead of repairing. *)
Theorem postprocess_succeeds_iff (float_of_str : string -> option pyfloat)
    (request : AIRequest) (ai_data : json) :
  (exists response, postprocess float_of_str request ai_data = Ok response)
  <-> exists fields,
        ai_data = JObj fields
        /\ text_like (default JNull (assoc "answer" fields))
        /\ text_like (default JNull (assoc "reasoning" fields))
        /\ text_like (default JNull (assoc "intent" fields)).
Proof.
  split.
  - intros (response & Hpost). unfold postprocess in Hpost.
    step_result Hpost a Ha. step_result Hpost raw_answer Hanswer.
    step_result Hpost raw_conf Hconf. step_result Hpost r Hr.
    step_result Hpost raw_reason Hreason. step_result Hpost raw_intent Hraw.
    step_result Hpost i Hi.
    destruct ai_data as [ | b | z | f | s | items | fields];
      try (exfalso; clear -Ha; discriminate Ha).
    unfold py_get in Ha, Hr, Hraw.
    apply Ok_inj in Ha as <-. apply Ok_inj in Hr as <-. apply Ok_inj in Hraw as <-.
    exists fields. split; [reflexivity | ].
    split; [eapply or_empty_strip_ok, Hanswer | ].
    split; [eapply or_empty_strip_ok, Hreason | eapply normalize_raw_intent_ok, Hi].
  - intros (fields & -> & Hanswer & Hreason & Hintent).
    destruct (or_empty_strip_text _ Hanswer) as (raw_answer & Ha).
    destruct (or_empty_strip_text _ Hreason) as (raw_reason & Hr).
    destruct (normalize_raw_intent_text _ (question request) Hintent) as (i & Hi).
    unfold postprocess, py_get.
    rewrite bind_Ok, Ha, !bind_Ok, Hr, !bind_Ok, Hi, bind_Ok.
    apply postprocess_tail_ok.
Qed.

Lemma allowed_guard_redundant (i : string) :
  i ∈ ALLOWED_INTENTS -> (if bool_decide (i ∈ ALLOWED_INTENTS) then i else "unknown") = i.
Proof. intros Hi. rewrite (bool_decide_eq_true_2 _ Hi). reflexivity. Qed.

(** X11: in a response of the post-processing the intent is the normalised
    intent itself: the final check against the Allowed Intent Set never
    replaces it.  The reasoning is never empty (the parsed text, or one of
    the two fixed sentences), and the two optional fields keep their
    defaults. *)
Theorem postprocess_response_shape (float_of_str : string -> option pyfloat)
    (request : AIRequest) (fields : list (string * json)) (response : AIResponse) :
  postprocess float_of_str request (JObj fields) = Ok response ->
  (exists i, normalize_raw_intent (default JNull (assoc "intent" fields))
                                  (question request) = Ok i
             /\ intent response = Some i)
  /\ (exists r, reasoning response = Some r /\ r <> "")
  /\ isNewIntent response = false
  /\ suggestedIntentName response = None.
Proof.
  unfold postprocess. intros Hpost.
  step_result Hpost a Ha. step_result Hpost raw_answer Hanswer.
  step_result Hpost raw_conf Hconf. step_result Hpost r Hr.
  step_result Hpost raw_reason Hreason. step_result Hpost raw_intent Hraw.
  step_result Hpost i Hi.
  unfold py_get in Hraw. apply Ok_inj in Hraw as <-.
  pose proof (normalize_raw_intent_member _ _ _ Hi) as Hallowed.
  destruct (_is_forbidden_answer raw_answer).
  - apply Ok_inj in Hpost as <-.
    unfold mkResponse; cbn [intent reasoning isNewIntent suggestedIntentName].
    split; [eauto | ]. split; [ | split; reflexivity].
    eexists. split; [reflexivity | discriminate].
  - destruct (option_matcher_stage request i raw_answer _) as [final_answer final_conf].
    apply Ok_inj in Hpost as <-.
    unfold mkResponse; cbn [intent reasoning isNewIntent suggestedIntentName].
    rewrite (allowed_guard_redundant _ Hallowed).
    split; [eauto | ]. split; [ | split; reflexivity].
    destruct raw_reason as [ | c t]; cbn [truthy_str];
      eexists; (split; [reflexivity | discriminate]).
Qed.

Lemma postprocess_response_shape_witness :
  exists r,
    reasoning (mkResponse "Yes" (FNum 0.9) "Profile states work authorization."
                          (Some "workAuthorization.authorizedUS")) = Some r
    /\ r <> "".
Proof.
  refine (proj1 (proj2 (postprocess_response_shape no_float authorized_request
                          [ ("answer", JStr "Yes"); ("confidence", JFloat (FNum 0.9));
                            ("reasoning", JStr "Profile states work authorization.");
                            ("intent", JStr "workAuthorization.authorizedUS") ]
                          _ _))).
  vm_compute. reflexivity.
Defined.

Lemma raise_floor_at_least (conf : pyfloat) :
  in_range conf ->
  exists q, py_max conf f075 = FNum q /\ (0.75 <= q)%Q /\ (q <= 0.99)%Q.
Proof.
  intros (q & -> & Hlo & Hhi). unfold py_max.
  destruct (flt (FNum q) f075) eqn:Hlt.
  - exists 0.75%Q. split; [reflexivity | ]. split; unfold Qle; simpl; lia.
  - exists q. split; [reflexivity | ]. split; [ | exact Hhi].
    simpl in Hlt. apply negb_false_iff, Qle_bool_iff in Hlt. exact Hlt.
Qed.

(** X12: a reply that has no answer (the field is absent, null, empty, or
    any other false value) or whose answer is blank or flagged is never
    passed on as it is.  The answer is the repairer's, the confidence is at
    least 0.75 and at most 0.99, and the reasoning is the fixed repair
    notice, not the model's. *)
Theorem unusable_answer_is_repaired (float_of_str : string -> option pyfloat)
    (request : AIRequest) (fields : list (string * json)) (raw_answer : string) :
  or_empty_strip (default JNull (assoc "answer" fields)) = Ok raw_answer ->
  _is_forbidden_answer raw_answer = true ->
  text_like (default JNull (assoc "reasoning" fields)) ->
  text_like (default JNull (assoc "intent" fields)) ->
  exists i q,
    postprocess float_of_str request (JObj fields)
    = Ok (mkResponse (_repair_answer (question request) (options request) i)
                     (FNum q) "Repaired answer to avoid placeholders." (Some i))
    /\ i ∈ ALLOWED_INTENTS
    /\ (0.75 <= q)%Q /\ (q <= 0.99)%Q.
Proof.
  intros Ha Hforbidden Hreason Hintent.
  destruct (or_empty_strip_text _ Hreason) as (raw_reason & Hr).
  destruct (normalize_raw_intent_text _ (question request) Hintent) as (i & Hi).
  destruct (raise_floor_at_least _
              (coerce_confidence_in_range float_of_str
                 (default (JFloat f075) (assoc "confidence" fields))))
    as (q & Hq & Hlo & Hhi).
  exists i, q. split; [ | split; [eapply normalize_raw_intent_member, Hi | auto]].
  unfold postprocess, py_get.
  rewrite bind_Ok, Ha, !bind_Ok, Hr, !bind_Ok, Hi, bind_Ok.
  rewrite Hforbidden. cbv zeta. rewrite Hq. reflexivity.
Qed.

Lemma unusable_answer_is_repaired_witness :
  exists i q,
    postprocess no_float
      {| question := "Why are you a strong fit for this role?"; options := None;
         fieldType := "textarea"; userProfile := JObj [] |}
      (JObj [ ("answer", JNull); ("confidence", JFloat (FNum 0.2)) ])
    = Ok (mkResponse
            (_repair_answer "Why are you a strong fit for this role?" None i)
            (FNum q) "Repaired answer to avoid placeholders." (Some i)).
Proof.
  destruct (unusable_answer_is_repaired no_float
              {| question := "Why are you a strong fit for this role?"; options := None;
                 fieldType := "textarea"; userProfile := JObj [] |}
              [ ("answer", JNull); ("confidence", JFloat (FNum 0.2)) ] "")
    as (i & q & Hpost & _).
  - reflexivity.
  - reflexivity.
  - left. reflexivity.
  - left. reflexivity.
  - exists i, q. exact Hpost.
Defined.

(** ** Predictor, continued *)

Lemma empty_not_allowed : "" ∉ ALLOWED_INTENTS.
Proof. apply (bool_decide_unpack _). vm_compute. exact I. Qed.

Section PredictAnswerMore.

Variable Store : Type.
Variable float_of_str : string -> option pyfloat.
Variable bedrock_invoke : AIRequest -> result string.
Variable json_loads : string -> result json.

Local Abbreviation predict_answer :=
  (predict_answer Store float_of_str bedrock_invoke json_loads).

(** X14: with the credentials set, each way the call can fail has its own
    fixed response.  An exception of the inference call, or of the decoder
    other than [JSONDecodeError], or of the post-processing, gives the
    ServiceError response carrying "AWS Error: " and the message; a
    [JSONDecodeError] gives the formatting fallback with confidence 0.78 and
    an intent read from the question alone. *)
Theorem predict_answer_failures (request : AIRequest) (w : World Store) :
  truthy_opt (environ w !! "AWS_ACCESS_KEY_ID") = true ->
  truthy_opt (environ w !! "AWS_SECRET_ACCESS_KEY") = true ->
  let response := (predict_answer request w).1 in
  (forall e, bedrock_invoke request = Raise e -> response = SERVICE_ERROR e)
  /\ (forall text e,
        bedrock_invoke request = Ok text ->
        json_loads (clean_fences text) = Raise e ->
        response = if String.eqb (exn_class e) "JSONDecodeError"
                   then formatting_fallback request
                   else SERVICE_ERROR e)
  /\ (forall text ai_data e,
        bedrock_invoke request = Ok text ->
        json_loads (clean_fences text) = Ok ai_data ->
        postprocess float_of_str request ai_data = Raise e ->
        response = SERVICE_ERROR e)
  /\ (forall e, reasoning (SERVICE_ERROR e) = Some ("AWS Error: " +:+ exn_msg e)
                /\ answer (SERVICE_ERROR e) = ""
                /\ is_zero (confidence (SERVICE_ERROR e)) = true)
  /\ confidence (formatting_fallback request) = f078
  /\ intent (formatting_fallback request)
     = Some (_normalize_intent None (question request)).
Proof.
  intros Hkey Hsecret response. subst response. unfold predict_answer.
  rewrite Hkey, Hsecret. cbn [negb orb]. unfold infer.
  split; [intros e ->; reflexivity | ].
  split; [intros text e Htext Hloads; rewrite Htext, bind_Ok, Hloads;
          destruct (String.eqb _ _); reflexivity | ].
  split; [intros text ai_data e Htext Hloads Hpost;
          rewrite Htext, bind_Ok, Hloads, Hpost; reflexivity | ].
  split; [intros e; repeat split; reflexivity | ].
  split; reflexivity.
Qed.

Lemma hard_safety_keeps_predictor (request : AIRequest) (w : World Store) :
  hard_safety (predict_answer request w).1 = (predict_answer request w).1.
Proof.
  pose proof (predict_answer_cases Store float_of_str bedrock_invoke json_loads
                request w) as Hcases.
  cbv zeta in Hcases. unfold hard_safety.
  destruct Hcases as [[-> | (e & ->)] | (_ & (i & -> & Hi) & _)]; try reflexivity.
  destruct i as [ | c t]; [ | reflexivity].
  exfalso. exact (empty_not_allowed Hi).
Qed.

(** X15: the intent guard of the endpoint never has anything to do on a
    response of the predictor: every response [predict_answer] returns
    already has a non-empty intent, so [hard_safety] leaves it as it is. *)
Theorem hard_safety_redundant (request : AIRequest) (w : World Store) :
  hard_safety (predict_answer request w).1 = (predict_answer request w).1.
Proof. apply hard_safety_keeps_predictor. Qed.

End PredictAnswerMore.

Lemma predict_answer_failures_witness :
  (predict_answer shelf no_float (replies "The answer is Yes.") undecodable
                  authorized_request configured_world).1
  = formatting_fallback authorized_request.
Proof.
  assert (Hkey : truthy_opt (environ configured_world !! "AWS_ACCESS_KEY_ID") = true)
    by (vm_compute; reflexivity).
  assert (Hsecret : truthy_opt (environ configured_world !! "AWS_SECRET_ACCESS_KEY") = true)
    by (vm_compute; reflexivity).
  exact (proj1 (proj2 (predict_answer_failures shelf no_float
                         (replies "The answer is Yes.") undecodable
                         authorized_request configured_world Hkey Hsecret))
               "The answer is Yes."
               (Exn "JSONDecodeError" "Expecting value: line 1 column 1 (char 0)")
               eq_refl eq_refl).
Defined.

(** ** Cleaning of the model's text *)

Lemma prefix_empty (s : string) : String.prefix "" s = true.
Proof. destruct s; reflexivity. Qed.

Lemma prefix_cons (a c : ascii) (p s : string) :
  String.prefix (String a p) (String c s) = Ascii.eqb c a && String.prefix p s.
Proof.
  cbn [String.prefix]. destruct (ascii_dec a c) as [<- | Hne].
  - rewrite Ascii.eqb_refl. reflexivity.
  - destruct (Ascii.eqb_spec c a) as [-> | _]; [ | reflexivity].
    exfalso. apply Hne. reflexivity.
Qed.

Lemma contains_cons (sub : string) (c : ascii) (s : string) :
  contains sub (String c s) = String.prefix sub (String c s) || contains sub s.
Proof. reflexivity. Qed.

Lemma replace_fence_step (c : ascii) (s : string) :
  replace_from "```" "" 0 (String c s)
  = if String.prefix "```" (String c s)
    then replace_from "```" "" 0
           (match s with String _ (String _ rest) => rest | _ => "" end)
    else String c (replace_from "```" "" 0 s).
Proof.
  cbn [replace_from]. destruct (String.prefix "```" (String c s)) eqn:Hprefix;
    [ | reflexivity].
  destruct s as [ | c1 [ | c2 rest]]; rewrite ?prefix_cons in Hprefix;
    cbn [String.prefix andb] in Hprefix; rewrite ?andb_false_r in Hprefix;
    try discriminate Hprefix.
  reflexivity.
Qed.

Lemma replace_fence_head1 (s : string) :
  String.prefix "`" (replace_from "```" "" 0 s) = true -> String.prefix "`" s = true.
Proof.
  destruct s as [ | c s]; [intros H; exact H | ].
  rewrite replace_fence_step.
  destruct (String.prefix "```" (String c s)) eqn:Hfence.
  - intros _. rewrite prefix_cons in Hfence. apply andb_true_iff in Hfence as [Hc _].
    rewrite prefix_cons, Hc, prefix_empty. reflexivity.
  - rewrite !prefix_cons, !prefix_empty. intros H; exact H.
Qed.

Lemma replace_fence_head2 (s : string) :
  String.prefix "``" (replace_from "```" "" 0 s) = true -> String.prefix "``" s = true.
Proof.
  destruct s as [ | c s]; [intros H; exact H | ].
  rewrite replace_fence_step.
  destruct (String.prefix "```" (String c s)) eqn:Hfence.
  - intros _. rewrite prefix_cons in Hfence. apply andb_true_iff in Hfence as [Hc Hrest].
    destruct s as [ | c1 s]; [discriminate Hrest | ].
    rewrite prefix_cons in Hrest. apply andb_true_iff in Hrest as [Hc1 _].
    rewrite !prefix_cons, Hc, Hc1, prefix_empty. reflexivity.
  - rewrite !(prefix_cons _ c). intros H. apply andb_true_iff in H as [Hc Hrest].
    rewrite Hc. apply replace_fence_head1 in Hrest. rewrite Hrest. reflexivity.
Qed.

Lemma replace_fence_clean_upto (n : nat) (s : string) :
  (String.length s <= n)%nat ->
  contains "```" (replace_from "```" "" 0 s) = false.
Proof.
  revert s. induction n as [ | n IH]; intros s Hlen.
  - destruct s; [reflexivity | cbn [String.length] in Hlen; lia].
  - destruct s as [ | c s]; [reflexivity | ].
    cbn [String.length] in Hlen. rewrite replace_fence_step.
    destruct (String.prefix "```" (String c s)) eqn:Hfence.
    + apply IH. destruct s as [ | c1 [ | c2 rest]]; cbn [String.length] in *; lia.
    + rewrite contains_cons, (IH s) by lia. rewrite orb_false_r.
      destruct (String.prefix "```" (String c (replace_from "```" "" 0 s))) eqn:Hnew;
        [ | reflexivity].
      rewrite prefix_cons in Hnew. apply andb_true_iff in Hnew as [Hc Hrest].
      apply replace_fence_head2 in Hrest.
      rewrite prefix_cons, Hc, Hrest in Hfence. discriminate Hfence.
Qed.

Lemma contains_lstrip (sub s : string) :
  contains sub (lstrip s) = true -> contains sub s = true.
Proof.
  induction s as [ | c s IH]; [intros H; exact H | ].
  cbn [lstrip]. destruct (is_space c); [ | intros H; exact H].
  intros H. rewrite contains_cons, (IH H). apply orb_true_r.
Qed.

Lemma rstrip_cons (c : ascii) (s : string) :
  rstrip (String c s) = "" \/ rstrip (String c s) = String c (rstrip s).
Proof.
  cbn [rstrip]. destruct (rstrip s) as [ | c' t]; [ | right; reflexivity].
  destruct (is_space c); [left | right]; reflexivity.
Qed.

Lemma prefix_rstrip (sub s : string) :
  String.prefix sub (rstrip s) = true -> String.prefix sub s = true.
Proof.
  revert sub. induction s as [ | c s IH]; intros sub; [intros H; exact H | ].
  destruct sub as [ | a p]; [intros _; reflexivity | ].
  destruct (rstrip_cons c s) as [-> | ->]; [discriminate | ].
  rewrite !prefix_cons. intros H. apply andb_true_iff in H as [-> Hp].
  rewrite (IH _ Hp). reflexivity.
Qed.

Lemma contains_rstrip (sub s : string) :
  contains sub (rstrip s) = true -> contains sub s = true.
Proof.
  induction s as [ | c s IH]; [intros H; exact H | ].
  intros H. rewrite contains_cons.
  destruct (String.prefix sub (String c s)) eqn:Hprefix; [reflexivity | ].
  destruct (rstrip_cons c s) as [Hr | Hr].
  - rewrite Hr in H. cbn [contains] in H. rewrite orb_false_r in H.
    destruct sub; [ | discriminate H]. rewrite prefix_empty in Hprefix.
    discriminate Hprefix.
  - rewrite Hr, contains_cons in H. apply orb_true_iff in H as [H | H].
    + rewrite <- Hr in H. apply prefix_rstrip in H. congruence.
    + apply IH, H.
Qed.

(** X16: the text handed to the JSON decoder never contains a code fence:
    whatever the model wrote, after the two replacements and the trim no
    three backticks in a row are left. *)
Theorem clean_fences_leaves_no_fence (content_text : string) :
  contains "```" (clean_fences content_text) = false.
Proof.
  unfold clean_fences, strip, replace.
  destruct (contains "```" (rstrip (lstrip _))) eqn:Hfence; [ | reflexivity].
  apply contains_rstrip, contains_lstrip in Hfence.
  rewrite (replace_fence_clean_upto _ _ (Nat.le_refl _)) in Hfence.
  discriminate Hfence.
Qed.

Example clean_fences_on_a_fenced_reply :
  clean_fences (String (ascii_of_nat 10)
                  ("```json" +:+ String (ascii_of_nat 10)
                     ("{answer: 1}" +:+ String (ascii_of_nat 10) "```")))
  = "{answer: 1}".
Proof. vm_compute. reflexivity. Qed.

(** ** The /predict endpoint, continued *)

Lemma assoc_some_truthy (k : string) (fields : list (string * json)) (v : json) :
  assoc k fields = Some v -> truthy (JObj fields) = true.
Proof. destruct fields; [discriminate | reflexivity]. Qed.

Section FacadeMore.

Variable Store : Type.
Variable search_pattern : string -> Store -> result json * Store.
Variable save_pattern : Pattern.t -> json -> Store -> result bool * Store.
Variable PATTERN_MEMORY_CONFIDENCE : pyfloat.
Variable float_of_str : string -> option pyfloat.
Variable bedrock_invoke : AIRequest -> result string.
Variable json_loads : string -> result json.

Local Abbreviation predict_answer :=
  (predict_answer Store float_of_str bedrock_invoke json_loads).
Local Abbreviation predict_miss :=
  (predict_miss Store save_pattern float_of_str bedrock_invoke json_loads).
Local Abbreviation predict :=
  (predict Store search_pattern save_pattern PATTERN_MEMORY_CONFIDENCE float_of_str
           bedrock_invoke json_loads).
Local Abbreviation memory_hit := (memory_hit PATTERN_MEMORY_CONFIDENCE).

(** The world right after the store was searched. *)
Local Abbreviation searched request w :=
  (with_store Store (search_pattern (question request) (store w)).2
              (log Store (CallSearch (question request)) w)).

Lemma predict_unfold (request : AIRequest) (w : World Store) :
  predict request w
  = match (search_pattern (question request) (store w)).1 with
    | Ok memory_match =>
        match memory_hit memory_match with
        | Ok (Some response) => (Ok response, searched request w)
        | Ok None => predict_miss request (searched request w)
        | Raise e => (Raise e, searched request w)
        end
    | Raise e => (Raise e, searched request w)
    end.
Proof.
  unfold predict, mbind, M_bind, call_search.
  destruct (search_pattern (question request) (store w)) as [[memory_match | e] s];
    cbn [fst snd]; [ | reflexivity].
  unfold predict_after_search, mbind, M_bind, lift.
  destruct (memory_hit memory_match) as [[hit | ] | e]; reflexivity.
Qed.

(** X17: a stored match with something to serve is answered from memory.
    The answer is the first variant of the first mapping when it has
    variants, and its canonical value otherwise; later mappings are not
    looked at.  The response carries the configured confidence, the fixed
    reasoning and the stored intent, and the inference service is not
    called, with or without credentials. *)
Theorem pattern_memory_serves (request : AIRequest) (w : World Store)
    (fields first : list (string * json)) (rest : list json)
    (served : string) (stored : option string) :
  (search_pattern (question request) (store w)).1 = Ok (JObj fields) ->
  assoc "answerMappings" fields = Some (JArr (JObj first :: rest)) ->
  (exists others, assoc "variants" first = Some (JArr (JStr served :: others)))
  \/ ((assoc "variants" first = None \/ assoc "variants" first = Some (JArr []))
      /\ assoc "canonicalValue" first = Some (JStr served)) ->
  served <> "" ->
  validated_opt_str "intent" (default JNull (assoc "intent" fields)) = Ok stored ->
  predict request w
  = (Ok (mkResponse served PATTERN_MEMORY_CONFIDENCE "Retrieved from Pattern Memory"
                    stored),
     searched request w)
  /\ calls (predict request w).2 = (calls w ++ [CallSearch (question request)])%list.
Proof.
  intros Hsearch Hmappings Hserved Hnonempty Hintent.
  assert (Htruthy : truthy (JStr served) = true).
  { destruct served; [congruence | reflexivity]. }
  assert (Hanswer : memory_answer (JObj fields) = Ok (JStr served)).
  { unfold memory_answer, py_get. rewrite Hmappings. cbn [from_option id].
    rewrite bind_Ok. cbn [truthy py_first]. rewrite !bind_Ok.
    destruct Hserved as [(others & ->) | ([-> | ->] & Hcanonical)];
      cbn [from_option id]; rewrite ?bind_Ok; cbn [truthy py_first];
      rewrite ?Hcanonical; reflexivity. }
  assert (Hhit : memory_hit (JObj fields)
                 = Ok (Some (mkResponse served PATTERN_MEMORY_CONFIDENCE
                                        "Retrieved from Pattern Memory" stored))).
  { unfold memory_hit. rewrite (assoc_some_truthy _ _ _ Hmappings), Hanswer, bind_Ok.
    rewrite Htruthy. unfold py_get. rewrite bind_Ok. cbn [validated_str].
    rewrite bind_Ok, Hintent. reflexivity. }
  rewrite predict_unfold, Hsearch, Hhit. split; reflexivity.
Qed.

(** X18: what one run of [predict] does to the world.  The store is searched
    once, first; the inference service is called at most once, after that;
    [save_pattern] is never called, so the store is left as the search left
    it; the environment is not written. *)
Theorem predict_effects (request : AIRequest) (w : World Store) :
  let w' := (predict request w).2 in
  environ w' = environ w
  /\ store w' = (search_pattern (question request) (store w)).2
  /\ (calls w' = (calls w ++ [CallSearch (question request)])%list
      \/ calls w' = (calls w ++ [CallSearch (question request); CallBedrock request])%list).
Proof.
  cbv zeta. rewrite predict_unfold.
  destruct ((search_pattern (question request) (store w)).1) as [memory_match | e];
    [ | cbn [snd]; auto].
  destruct (memory_hit memory_match) as [[hit | ] | e]; [cbn [snd]; auto | | cbn [snd]; auto].
  rewrite predict_miss_run. cbn [snd].
  destruct (predict_answer_world Store float_of_str bedrock_invoke json_loads request
              (searched request w)) as [-> | ->].
  - auto.
  - cbn [environ store calls log with_store]. rewrite <- app_assoc. auto.
Qed.

(** X19: failures of the store are not absorbed.  When the search raises,
    [predict] raises the same exception; when the stored match has a first
    mapping that is not an object, [predict] raises the [AttributeError] of
    reading it.  In both cases the predictor is not tried. *)
Theorem predict_store_failures (request : AIRequest) (w : World Store) :
  (forall e,
     (search_pattern (question request) (store w)).1 = Raise e ->
     predict request w = (Raise e, searched request w))
  /\ (forall fields x rest,
        (search_pattern (question request) (store w)).1 = Ok (JObj fields) ->
        assoc "answerMappings" fields = Some (JArr (x :: rest)) ->
        match x with JObj _ => False | _ => True end ->
        predict request w = (Raise (no_attribute x "get"), searched request w))
  /\ calls (searched request w) = (calls w ++ [CallSearch (question request)])%list.
Proof.
  split; [intros e Hsearch; rewrite predict_unfold, Hsearch; reflexivity | ].
  split; [ | reflexivity].
  intros fields x rest Hsearch Hmappings Hshape.
  rewrite predict_unfold, Hsearch.
  assert (Hhit : memory_hit (JObj fields) = Raise (no_attribute x "get")).
  { unfold memory_hit. rewrite (assoc_some_truthy _ _ _ Hmappings).
    unfold memory_answer, py_get. rewrite Hmappings. cbn [from_option id].
    rewrite bind_Ok. cbn [truthy py_first]. rewrite bind_Ok.
    destruct x; [reflexivity .. | destruct Hshape]. }
  rewrite Hhit. reflexivity.
Qed.

End FacadeMore.

Lemma pattern_memory_serves_witness :
  predict shelf (search_finds stored_without_intent) save_appends (FNum 0.95) no_float
          (replies "unused") undecodable authorized_request bare_world
  = (Ok (mkResponse "Yes" (FNum 0.95) "Retrieved from Pattern Memory" None),
     with_store shelf [] (log shelf (CallSearch (question authorized_request)) bare_world)).
Proof.
  refine (proj1 (pattern_memory_serves shelf (search_finds stored_without_intent)
                   save_appends (FNum 0.95) no_float (replies "unused") undecodable
                   authorized_request bare_world
                   [ ("answerMappings",
                      JArr [ JObj [ ("canonicalValue", JStr "Yes");
                                    ("variants", JArr []) ] ]) ]
                   [ ("canonicalValue", JStr "Yes"); ("variants", JArr []) ]
                   [] "Yes" None _ _ _ _ _)).
  - reflexivity.
  - reflexivity.
  - right. split; [right; reflexivity | reflexivity].
  - discriminate.
  - reflexivity.
Defined.

Lemma predict_store_failures_witness :
  predict shelf (search_finds (JObj [ ("answerMappings", JArr [JStr "Yes"]) ]))
          save_appends (FNum 0.95) no_float (replies "unused") undecodable
          authorized_request configured_world
  = (Raise (Exn "AttributeError" "'str' object has no attribute 'get'"),
     with_store shelf []
       (log shelf (CallSearch (question authorized_request)) configured_world)).
Proof.
  refine (proj1 (proj2 (predict_store_failures shelf
                          (search_finds (JObj [ ("answerMappings", JArr [JStr "Yes"]) ]))
                          save_appends (FNum 0.95) no_float (replies "unused")
                          undecodable authorized_request configured_world))
                [ ("answerMappings", JArr [JStr "Yes"]) ] (JStr "Yes") [] _ _ _).
  - reflexivity.
  - reflexivity.
  - exact I.
Defined.

(** ** Option matcher: what a candidate rests on *)

Lemma dict_set_entries (P : string * string -> Prop) (k v : string)
    (d : list (string * string)) :
  P (k, v) -> Forall P d -> Forall P (dict_set k v d).
Proof.
  intros Hkv. induction 1 as [ | [k' v'] d Hhead Hd IH]; cbn [dict_set].
  - apply Forall_cons; split; [exact Hkv | apply Forall_nil; exact I].
  - destruct (String.eqb k k').
    + apply Forall_cons; split; [exact Hkv | exact Hd].
    + apply Forall_cons; split; [exact Hhead | exact IH].
Qed.

(** ** Answers to constrained questions *)

Lemma supplied_options_some (request : AIRequest) :
  supplied_options request <> [] ->
  options request = Some (supplied_options request).
Proof.
  unfold supplied_options. destruct (options request); [reflexivity | congruence].
Qed.

Lemma repair_within_options (request : AIRequest) (intent : string) :
  supplied_options request <> [] ->
  _repair_answer (question request) (options request) intent ∈ supplied_options request.
Proof.
  intros Hne. rewrite (supplied_options_some _ Hne) at 1.
  apply repair_answer_member, Hne.
Qed.

Lemma option_matcher_stage_within_options (request : AIRequest)
    (intent raw_answer : string) (conf : pyfloat) :
  supplied_options request <> [] ->
  (option_matcher_stage request intent raw_answer conf).1 ∈ supplied_options request.
Proof.
  intros Hne. unfold option_matcher_stage.
  destruct (supplied_options request) as [ | first rest] eqn:Hopts; [congruence | ].
  destruct (str_in raw_answer (first :: rest)) eqn:Hin; cbn [negb fst].
  - apply str_in_member, Hin.
  - apply option_matcher_member. discriminate.
Qed.

Section ConstrainedAnswers.

Variable Store : Type.
Variable float_of_str : string -> option pyfloat.
Variable bedrock_invoke : AIRequest -> result string.
Variable json_loads : string -> result json.

Lemma postprocess_within_options (request : AIRequest) (ai_data : json)
    (response : AIResponse) :
  supplied_options request <> [] ->
  postprocess float_of_str request ai_data = Ok response ->
  answer response ∈ supplied_options request.
Proof.
  intros Hne Hpost. unfold postprocess in Hpost.
  step_result Hpost a Ha. step_result Hpost raw_answer Hanswer.
  step_result Hpost raw_conf Hconf. step_result Hpost r Hr.
  step_result Hpost raw_reason Hreason. step_result Hpost raw_intent Hraw.
  step_result Hpost i Hi.
  destruct (_is_forbidden_answer raw_answer).
  - apply Ok_inj in Hpost as <-. unfold mkResponse; cbn [answer].
    apply repair_within_options, Hne.
  - pose proof (option_matcher_stage_within_options request i raw_answer
                  (coerce_confidence float_of_str raw_conf) Hne) as Hstage.
    destruct (option_matcher_stage request i raw_answer _) as [final_answer final_conf].
    apply Ok_inj in Hpost as <-. exact Hstage.
Qed.

(** X21: a question that comes with options is always answered with one of
    them.  Whatever the model replies (a free sentence, a placeholder,
    something that is not JSON), every response of [predict_answer] other
    than the two zero-confidence ones carries an answer taken from the
    option list of the request, spelled as the list spells it. *)
Theorem answers_within_options (request : AIRequest) (w : World Store) :
  supplied_options request <> [] ->
  let response :=
    (predict_answer Store float_of_str bedrock_invoke json_loads request w).1 in
  terminal response \/ answer response ∈ supplied_options request.
Proof.
  intros Hne. cbv zeta. unfold predict_answer.
  destruct (negb _ || negb _); [left; left; reflexivity | ].
  destruct (infer _ _ _ request) as [response | e] eqn:Hinfer; cbn [fst];
    [ | left; right; eauto].
  right. unfold infer in Hinfer. step_result Hinfer content_text Htext.
  destruct (json_loads _) as [ai_data | e].
  - eapply postprocess_within_options; eassumption.
  - destruct (String.eqb _ _); [ | discriminate Hinfer].
    apply Ok_inj in Hinfer as <-. unfold formatting_fallback, mkResponse; cbn [answer].
    apply repair_within_options, Hne.
Qed.

End ConstrainedAnswers.

Lemma answers_within_options_witness :
  terminal (predict_answer shelf no_float (replies "Probably yes, I think.") undecodable
                           authorized_request configured_world).1
  \/ answer (predict_answer shelf no_float (replies "Probably yes, I think.") undecodable
                            authorized_request configured_world).1
     ∈ ["Yes"; "No"].
Proof.
  apply (answers_within_options shelf no_float (replies "Probably yes, I think.")
           undecodable authorized_request configured_world).
  discriminate.
Defined.

(** ** The API key gate *)

(** X22: the gate lets a request through exactly when no key is configured
    (absent or empty) or the X-API-Key header equals the configured key; in
    every other case, a request without the header included, it raises
    [HTTPException] with status 403. *)
Theorem api_key_gate (API_KEY api_key : option string) :
  (verify_api_key API_KEY api_key = Returned ()
   <-> API_KEY = None \/ API_KEY = Some "" \/ api_key = API_KEY)
  /\ (verify_api_key API_KEY api_key = Returned ()
      \/ verify_api_key API_KEY api_key
         = HTTPException 403
             "Could not validate credentials - Missing or invalid X-API-Key")
  /\ (truthy_opt API_KEY = true ->
      verify_api_key API_KEY None
      = HTTPException 403
          "Could not validate credentials - Missing or invalid X-API-Key").
Proof.
  unfold verify_api_key. split; [ | split].
  - destruct API_KEY as [[ | c key] | ]; cbn [truthy_opt truthy_str negb].
    + split; auto.
    + case_bool_decide as Heq; cbn [negb].
      * split; auto.
      * split; [discriminate | ]. intros [H | [H | H]]; congruence.
    + split; auto.
  - destruct (negb (truthy_opt API_KEY)); [left; reflexivity | ].
    destruct (negb _); [right | left]; reflexivity.
  - intros Hset. rewrite Hset. cbn [negb].
    case_bool_decide as Heq; [ | reflexivity].
    subst API_KEY. discriminate Hset.
Qed.

Lemma api_key_gate_witness :
  verify_api_key (Some "s3cret") None
  = HTTPException 403 "Could not validate credentials - Missing or invalid X-API-Key".
Proof.
  refine (proj2 (proj2 (api_key_gate (Some "s3cret") None)) _). reflexivity.
Defined.

(** ** The analytics logger *)

Lemma assoc_json_set (k k' : string) (v : json) (d : list (string * json)) :
  assoc k (json_set k' v d) = if String.eqb k k' then Some v else assoc k d.
Proof.
  induction d as [ | [k0 v0] d IH]; cbn [json_set assoc].
  - destruct (String.eqb k k'); reflexivity.
  - destruct (String.eqb k' k0) eqn:Hk0; cbn [assoc].
    + apply String.eqb_eq in Hk0 as <-. destruct (String.eqb k k'); reflexivity.
    + rewrite IH. destruct (String.eqb k k0) eqn:Hk; [ | reflexivity].
      apply String.eqb_eq in Hk as ->. rewrite String.eqb_sym, Hk0. reflexivity.
Qed.

(** X23: the row handed to the insert has the fields of the event, in the
    order the model declares them.  Its "missed_questions" is never null: a
    missing list is replaced by the empty list.  Every other field is passed
    on as it is; a missing "all_questions" in particular stays null. *)
Theorem analytics_row_fields (event : AnalyticsEvent.t) :
  let row := analytics_row event in
  row.*1 = (event_dict event).*1
  /\ assoc "missed_questions" row
     = Some (JArr (JStr <$> default [] (AnalyticsEvent.missed_questions event)))
  /\ (forall k, k <> "missed_questions" -> assoc k row = assoc k (event_dict event))
  /\ assoc "all_questions" row
     = Some (json_of_opt_list (AnalyticsEvent.all_questions event)).
Proof.
  cbv zeta. unfold analytics_row.
  destruct event as [e1 e2 e3 e4 e5 e6 e7 e8 e9 e10 e11 e12 e13 missed all e16].
  destruct missed as [l | ].
  - cbn [event_dict AnalyticsEvent.missed_questions AnalyticsEvent.all_questions
         json_of_opt_list assoc String.eqb Ascii.eqb Bool.eqb andb from_option id].
    repeat split; reflexivity.
  - split; [reflexivity | ]. split; [reflexivity | ]. split; [ | reflexivity].
    intros k Hk.
    change (assoc k (json_set "missed_questions" (JArr [])
                       (event_dict (AnalyticsEvent.Build_t e1 e2 e3 e4 e5 e6 e7 e8 e9
                                      e10 e11 e12 e13 None all e16)))
            = assoc k (event_dict (AnalyticsEvent.Build_t e1 e2 e3 e4 e5 e6 e7 e8 e9
                                     e10 e11 e12 e13 None all e16))).
    rewrite assoc_json_set. apply String.eqb_neq in Hk. rewrite Hk. reflexivity.
Qed.

(** X24: the logger reports success exactly when the insert returned data
    that is true and whose first element is an object.  An insert that
    raises, that returns nothing, or that returns data of another shape is
    reported as a failure; in every case the insert was given one row, the
    one of the event. *)
Theorem analytics_logged_iff (insert : json -> result json) (event : AnalyticsEvent.t) :
  ((log_analytics_event insert event).1 = true
   <-> exists result_data fields,
         insert (JObj (analytics_row event)) = Ok result_data
         /\ truthy result_data = true
         /\ py_first result_data = Ok (JObj fields))
  /\ (log_analytics_event insert event).2 = [JObj (analytics_row event)].
Proof.
  split; [ | reflexivity].
  unfold log_analytics_event. cbn [fst].
  destruct (insert (JObj (analytics_row event))) as [result_data | e].
  - rewrite bind_Ok. destruct (truthy result_data) eqn:Htruthy.
    + destruct (py_first result_data) as [first | e] eqn:Hfirst.
      * rewrite bind_Ok.
        destruct first as [ | b | z | f | s | items | fields]; cbn [py_get];
          try (split; [discriminate | intros (d & fs & Hd & _ & Hf);
                                      apply Ok_inj in Hd; subst d;
                                      rewrite Hfirst in Hf; discriminate Hf]).
        rewrite bind_Ok. split; [ | reflexivity]. intros _. eauto.
      * split; [discriminate | ].
        intros (d & fs & Hd & _ & Hf). apply Ok_inj in Hd. subst d.
        rewrite Hfirst in Hf. discriminate Hf.
    + split; [discriminate | ].
      intros (d & fs & Hd & Ht & _). apply Ok_inj in Hd. subst d. congruence.
  - split; [discriminate | ]. intros (d & fs & Hd & _). discriminate Hd.
Qed.

(** ** The endpoint on a miss *)

(** X25: when the store has nothing to serve (no match, or a match that
    yields no answer), the outcome of [predict] is the outcome of
    [predict_answer] run after the search: the same response, field for
    field, and the same world.  Neither the intent guard nor the attempt to
    save changes anything. *)
Theorem predict_miss_is_predictor (Store : Type)
    (search_pattern : string -> Store -> result json * Store)
    (save_pattern : Pattern.t -> json -> Store -> result bool * Store)
    (PATTERN_MEMORY_CONFIDENCE : pyfloat)
    (float_of_str : string -> option pyfloat)
    (bedrock_invoke : AIRequest -> result string)
    (json_loads : string -> result json)
    (request : AIRequest) (w : World Store) (memory_match : json) :
  (search_pattern (question request) (store w)).1 = Ok memory_match ->
  memory_hit PATTERN_MEMORY_CONFIDENCE memory_match = Ok None ->
  let after_search :=
    with_store Store (search_pattern (question request) (store w)).2
               (log Store (CallSearch (question request)) w) in
  predict Store search_pattern save_pattern PATTERN_MEMORY_CONFIDENCE float_of_str
          bedrock_invoke json_loads request w
  = (Ok (predict_answer Store float_of_str bedrock_invoke json_loads request
                        after_search).1,
     (predict_answer Store float_of_str bedrock_invoke json_loads request
                     after_search).2).
Proof.
  intros Hsearch Hhit. cbv zeta.
  rewrite predict_unfold, Hsearch, Hhit, predict_miss_run, hard_safety_keeps_predictor.
  reflexivity.
Qed.

Lemma predict_miss_is_predictor_witness :
  predict shelf search_none save_appends (FNum 0.95) no_float
          (replies "The answer is Yes.") undecodable authorized_request configured_world
  = (Ok (predict_answer shelf no_float (replies "The answer is Yes.") undecodable
                        authorized_request
                        (with_store shelf []
                           (log shelf (CallSearch (question authorized_request))
                                configured_world))).1,
     (predict_answer shelf no_float (replies "The answer is Yes.") undecodable
                     authorized_request
                     (with_store shelf []
                        (log shelf (CallSearch (question authorized_request))
                             configured_world))).2).
Proof.
  refine (predict_miss_is_predictor shelf search_none save_appends (FNum 0.95) no_float
            (replies "The answer is Yes.") undecodable authorized_request
            configured_world JNull _ _).
  - reflexivity.
  - reflexivity.
Defined.

(** * The string-sensitive steps, for text in any script

    What follows is stated over [Runtime]: [strip] and [lower] are any two
    functions, so each statement holds in particular of [str.strip] and
    [str.lower] as the interpreter has them, on text of any script. *)

(** At the ASCII [strip] and [lower] the functions of [Runtime] are those of
    the first part. *)
Lemma runtime_at_ascii :
  Runtime._normalize_intent strip lower = _normalize_intent
  /\ Runtime._repair_answer strip lower = _repair_answer
  /\ Runtime.build_lower_map strip lower = build_lower_map
  /\ Runtime.resolve_candidate strip lower = resolve_candidate
  /\ Runtime.option_matcher strip lower = option_matcher
  /\ Runtime.option_matcher_stage strip lower = option_matcher_stage.
Proof. repeat split; reflexivity. Qed.

(** ** The detector's patterns under [re.IGNORECASE] *)

Lemma match_char_backslash (s : string) :
  contains "\" s = false -> Runtime.match_char backslash s = None.
Proof.
  destruct s as [ | c s]; [reflexivity | ].
  rewrite contains_backslash_cons. intros Hs. apply orb_false_iff in Hs as [Hc _].
  unfold Runtime.match_char, char_matches.
  rewrite Ascii.eqb_sym, lower_char_backslash, Hc. reflexivity.
Qed.

Lemma rt_search_needs_backslash (r : list re_atom) (prev : option ascii) (s : string) :
  contains "\" s = false ->
  Runtime.re_search_from (AChar backslash :: r) prev s = false.
Proof.
  revert prev. induction s as [ | c s IH]; intros prev Hs; [reflexivity | ].
  cbn [Runtime.re_search_from Runtime.re_match_here].
  rewrite (match_char_backslash _ Hs).
  rewrite contains_backslash_cons in Hs. apply orb_false_iff in Hs as [_ Hs].
  rewrite (IH _ Hs). reflexivity.
Qed.

(** The letters that [re.IGNORECASE] matches beyond the two cases of a
    pattern letter: the long s is read as an s, the Kelvin sign as a k, the
    dotless i as an i. *)
Example ignorecase_beyond_ascii :
  Runtime.re_search "not sure" "not ſure" = true
  /\ Runtime.re_search "do not know" "do not Know" = true
  /\ Runtime.re_search "nothing" "nothıng" = true
  /\ Runtime.re_search "not sure" "not  sure" = false.
Proof. repeat split; vm_compute; reflexivity. Qed.

Section RuntimeFacts.

Variable strip : string -> string.
Variable lower : string -> string.

Local Abbreviation _is_forbidden_answer := (Runtime._is_forbidden_answer strip lower).
Local Abbreviation pref_matches := (Runtime.pref_matches strip lower).
Local Abbreviation first_preferred := (Runtime.first_preferred strip lower).
Local Abbreviation _repair_answer := (Runtime._repair_answer strip lower).
Local Abbreviation build_lower_map := (Runtime.build_lower_map strip lower).
Local Abbreviation exact_candidate := (Runtime.exact_candidate strip lower).
Local Abbreviation synonym_candidate := (Runtime.synonym_candidate strip lower).
Local Abbreviation substring_candidate := (Runtime.substring_candidate lower).
Local Abbreviation resolve_candidate := (Runtime.resolve_candidate strip lower).
Local Abbreviation option_matcher := (Runtime.option_matcher strip lower).
Local Abbreviation option_matcher_stage := (Runtime.option_matcher_stage strip lower).
Local Abbreviation or_empty_strip := (Runtime.or_empty_strip strip).
Local Abbreviation normalize_raw_intent := (Runtime.normalize_raw_intent strip lower).
Local Abbreviation postprocess := (Runtime.postprocess strip lower).

(** ** Answer repairer *)

Lemma rt_first_preferred_member (ps opts : list string) (opt : string) :
  first_preferred ps opts = Some opt -> opt ∈ opts.
Proof.
  induction ps as [ | p ps IH]; cbn [Runtime.first_preferred]; [discriminate | ].
  destruct (List.find (pref_matches p) opts) as [hit | ] eqn:Hfind.
  - intros [= <-]. eapply find_member, Hfind.
  - exact IH.
Qed.

Lemma rt_first_preferred_search (earlier : list string) (p : string) (later : list string)
    (before : list string) (opt : string) (after : list string) :
  Forall (fun p' => Forall (fun o => pref_matches p' o = false)
                           (before ++ opt :: after)) earlier ->
  Forall (fun o => pref_matches p o = false) before ->
  pref_matches p opt = true ->
  first_preferred (earlier ++ p :: later) (before ++ opt :: after) = Some opt.
Proof.
  intros Hearlier Hbefore Hopt.
  induction Hearlier as [ | p' earlier Hp' _ IH]; cbn [Runtime.first_preferred app].
  - rewrite (find_first_hit _ _ _ _ Hbefore Hopt). reflexivity.
  - rewrite (find_no_hit _ _ Hp'). exact IH.
Qed.

Lemma rt_first_preferred_none (ps opts : list string) :
  Forall (fun p => Forall (fun o => pref_matches p o = false) opts) ps ->
  first_preferred ps opts = None.
Proof.
  induction 1 as [ | p ps Hp _ IH]; cbn [Runtime.first_preferred]; [reflexivity | ].
  rewrite (find_no_hit _ _ Hp). exact IH.
Qed.

Lemma rt_repair_answer_member (question : string) (opts : list string) (intent : string) :
  opts <> [] -> _repair_answer question (Some opts) intent ∈ opts.
Proof.
  intros Hne. unfold Runtime._repair_answer.
  destruct opts as [ | first rest]; [congruence | ].
  destruct (first_preferred pref (first :: rest)) as [opt | ] eqn:Hpref.
  - eapply rt_first_preferred_member, Hpref.
  - apply list_elem_of_In. left. reflexivity.
Qed.

(** ** Option matcher *)

Lemma rt_build_lower_map_snoc (opts : list string) (o : string) :
  build_lower_map (opts ++ [o]) = dict_set (strip (lower o)) o (build_lower_map opts).
Proof. unfold Runtime.build_lower_map. rewrite fold_left_app. reflexivity. Qed.

(** Reading [lower_map]: the options are searched from the end of the list,
    so of several options with one normalised text the last is found. *)
Lemma rt_lower_map_lookup (opts : list string) (k : string) :
  dict_get k (build_lower_map opts)
  = List.find (fun o => String.eqb k (strip (lower o))) (rev opts).
Proof.
  induction opts as [ | o opts IH] using rev_ind; [reflexivity | ].
  rewrite rt_build_lower_map_snoc, dict_get_set, rev_unit. cbn [List.find].
  rewrite IH. reflexivity.
Qed.

(** Every entry of [lower_map] pairs an option with its normalised text. *)
Lemma rt_lower_map_entries (opts : list string) :
  Forall (fun kv => kv.1 = strip (lower kv.2) /\ kv.2 ∈ opts) (build_lower_map opts).
Proof.
  induction opts as [ | o opts IH] using rev_ind.
  - apply Forall_nil. exact I.
  - rewrite rt_build_lower_map_snoc. apply dict_set_entries.
    + split; [reflexivity | ]. apply list_elem_of_In, in_or_app. right. left. reflexivity.
    + eapply Forall_impl; [exact IH | ]. intros [k v] [Hk Hv]. split; [exact Hk | ].
      apply list_elem_of_In, in_or_app. left. apply list_elem_of_In, Hv.
Qed.

Lemma rt_dict_get_entry (opts : list string) (k v : string) :
  dict_get k (build_lower_map opts) = Some v -> k = strip (lower v) /\ v ∈ opts.
Proof.
  intros Hget. apply dict_get_member in Hget.
  pose proof (rt_lower_map_entries opts) as Hall. rewrite Forall_forall in Hall.
  exact (Hall _ Hget).
Qed.

Lemma rt_first_synonym_hit_entry (syns opts : list string) (c : string) :
  first_synonym_hit syns (build_lower_map opts) = Some c ->
  strip (lower c) ∈ syns /\ c ∈ opts.
Proof.
  induction syns as [ | syn syns IH]; cbn [first_synonym_hit]; [discriminate | ].
  destruct (dict_get syn (build_lower_map opts)) as [opt | ] eqn:Hget.
  - intros [= <-]. apply rt_dict_get_entry in Hget as [-> Hopt].
    split; [apply list_elem_of_In; left; reflexivity | exact Hopt].
  - intros Hrest. destruct (IH Hrest) as [Hsyn Hopt].
    split; [apply list_elem_of_In; right; apply list_elem_of_In, Hsyn | exact Hopt].
Qed.

(** ** The option matcher stage within the predictor *)

Lemma rt_or_empty_strip_text (v : json) :
  text_like v -> exists s, or_empty_strip v = Ok s.
Proof.
  unfold Runtime.or_empty_strip. intros [-> | (s & ->)]; [eauto | ].
  destruct (truthy (JStr s)); eauto.
Qed.

Lemma rt_normalize_raw_intent_text (v : json) (question : string) :
  text_like v -> exists i, normalize_raw_intent v question = Ok i.
Proof.
  unfold Runtime.normalize_raw_intent. intros [-> | (s & ->)]; [eauto | ].
  destruct (truthy (JStr s)); eauto.
Qed.

Lemma rt_or_empty_strip_str (s : string) : or_empty_strip (JStr s) = Ok (strip s).
Proof. destruct s; reflexivity. Qed.

End RuntimeFacts.

(** ** The statements *)

(** X5: as the patterns are written, no wording of an answer makes the
    detector fire.  An answer whose trimmed, lowercased text holds no
    backslash is flagged exactly when that text is empty, with the case
    folding of [re.IGNORECASE] taken in full. *)
Theorem backslash_free_flagged_iff_blank (strip lower : string -> string)
    (ans : string) :
  contains "\" (lower (strip ans)) = false ->
  Runtime._is_forbidden_answer strip lower ans = negb (truthy_str (lower (strip ans))).
Proof.
  intros Hs. unfold Runtime._is_forbidden_answer.
  destruct (truthy_str (lower (strip ans))); [ | reflexivity].
  cbn [negb]. apply not_true_is_false. intros Hflag.
  apply existsb_exists in Hflag as (pat & Hin & Hpat).
  pose proof patterns_start_with_backslash as Hall. rewrite Forall_forall in Hall.
  destruct (Hall pat) as (r & Hr); [apply list_elem_of_In, Hin | ].
  unfold Runtime.re_search in Hpat.
  rewrite Hr, rt_search_needs_backslash in Hpat; [discriminate | exact Hs].
Qed.

(** C4: on a non-empty option list the repairer returns an element of the
    list.  It goes through the four preferences in their order and, for each,
    through the options in theirs, and returns the first option whose
    trimmed, lowercased text equals the lowercased preference, as the list
    spells it; when no option matches any preference it returns the first
    option of the list.  Trimming and lowercasing are the interpreter's,
    whatever they do to the text. *)
Theorem repair_answer_options (strip lower : string -> string)
    (question : string) (opts : list string) (intent : string) :
  opts <> [] ->
  let repaired := Runtime._repair_answer strip lower question (Some opts) intent in
  pref = [ "Prefer not to say"; "Decline to answer"; "Decline to state";
           "Prefer not to disclose" ]
  /\ repaired ∈ opts
  /\ (forall (earlier : list string) p later (before : list string) opt after,
        pref = (earlier ++ p :: later)%list ->
        opts = (before ++ opt :: after)%list ->
        Forall (fun p' => Forall (fun o => lower (strip o) <> lower p') opts) earlier ->
        Forall (fun o => lower (strip o) <> lower p) before ->
        lower (strip opt) = lower p ->
        repaired = opt)
  /\ (Forall (fun p => Forall (fun o => lower (strip o) <> lower p) opts) pref ->
      head opts = Some repaired).
Proof.
  intros Hne repaired.
  assert (Hneq : forall p l, Forall (fun o => lower (strip o) <> lower p) l ->
                             Forall (fun o => Runtime.pref_matches strip lower p o = false)
                                    l).
  { intros p l Hl. eapply Forall_impl; [exact Hl | ]. intros o Ho.
    unfold Runtime.pref_matches. apply String.eqb_neq, Ho. }
  split; [reflexivity | ].
  split; [apply rt_repair_answer_member, Hne | ].
  split.
  - intros earlier p later before opt after Hpref Hopts Hearlier Hbefore Hopt.
    subst repaired. unfold Runtime._repair_answer.
    destruct opts as [ | first rest]; [congruence | ].
    rewrite Hpref, Hopts.
    rewrite rt_first_preferred_search; [reflexivity | | | ].
    + rewrite <- Hopts. eapply Forall_impl; [exact Hearlier | ].
      intros p'. apply Hneq.
    + apply Hneq, Hbefore.
    + unfold Runtime.pref_matches. apply String.eqb_eq, Hopt.
  - intros Hnone. subst repaired. unfold Runtime._repair_answer.
    destruct opts as [ | first rest]; [congruence | ].
    rewrite rt_first_preferred_none; [reflexivity | ].
    eapply Forall_impl; [exact Hnone | ]. intros p. apply Hneq.
Qed.

(** X8: an answer that equals an option up to case and surrounding
    whitespace is resolved by the first step, with the confidence left as it
    was.  The option returned is spelled as the list spells it, and when
    several options normalise to the same text it is the last of them.
    Trimming and lowercasing are the interpreter's; all that is asked of
    them is that they leave the empty string empty. *)
Theorem case_insensitive_option_match (strip lower : string -> string)
    (question : string) (opts : list string)
    (intent raw_answer : string) (conf : pyfloat) (o : string) :
  strip (lower "") = "" ->
  o ∈ opts ->
  strip (lower o) = strip (lower raw_answer) ->
  strip (lower raw_answer) <> "" ->
  exists c before after,
    Runtime.option_matcher strip lower question opts intent raw_answer conf = (c, conf)
    /\ opts = (before ++ c :: after)%list
    /\ strip (lower c) = strip (lower raw_answer)
    /\ Forall (fun o' => strip (lower o') <> strip (lower raw_answer)) after.
Proof.
  intros Hempty Ho Hkey Hnonblank.
  set (f := fun o' => String.eqb (strip (lower raw_answer)) (strip (lower o'))).
  assert (Hexact : Runtime.exact_candidate strip lower
                     (Runtime.build_lower_map strip lower opts) raw_answer
                   = List.find f (rev opts)) by apply rt_lower_map_lookup.
  destruct (List.find f (rev opts)) as [c | ] eqn:Hfind.
  - destruct (find_split f _ _ Hfind) as (b & a & Hrev & Hb & Hc).
    unfold f in Hc. apply String.eqb_eq in Hc.
    assert (Htruthy : truthy_str c = true).
    { destruct c; [ | reflexivity]. exfalso. apply Hnonblank. rewrite Hc. exact Hempty. }
    exists c, (rev a), (rev b). split; [ | split; [ | split]].
    + assert (Ht : truthy_opt (Some c) = true) by exact Htruthy.
      unfold Runtime.option_matcher, Runtime.resolve_candidate. rewrite Hexact.
      repeat (rewrite ?Ht, ?Htruthy; cbn beta iota). reflexivity.
    + rewrite <- (rev_involutive opts), Hrev, rev_app_distr. cbn [rev].
      rewrite <- app_assoc. reflexivity.
    + symmetry. exact Hc.
    + apply Forall_forall. intros o' Ho' Heq.
      rewrite Forall_forall in Hb.
      assert (Hin : o' ∈ b) by (apply list_elem_of_In, in_rev, list_elem_of_In, Ho').
      specialize (Hb o' Hin). unfold f in Hb. rewrite Heq, String.eqb_refl in Hb.
      discriminate Hb.
  - exfalso. apply (find_none f) with (x := o) in Hfind.
    + unfold f in Hfind. rewrite Hkey, String.eqb_refl in Hfind. discriminate Hfind.
    + apply in_rev. rewrite rev_involutive. apply list_elem_of_In, Ho.
Qed.

(** X20: a candidate of the option matcher is never arbitrary.  It is one of
    the options, and its normalised text equals the normalised answer, or is
    listed in the synonym table under the normalised answer, or contains the
    lowercased answer or is contained in it. *)
Theorem resolve_candidate_justified (strip lower : string -> string)
    (opts : list string) (raw_answer c : string) :
  Runtime.resolve_candidate strip lower opts raw_answer = Some c ->
  c ∈ opts
  /\ (strip (lower c) = strip (lower raw_answer)
      \/ (exists syns, synonyms_of (strip (lower raw_answer)) synonym_map = Some syns
                       /\ strip (lower c) ∈ syns)
      \/ contains (strip (lower c)) (lower raw_answer) = true
      \/ contains (lower raw_answer) (strip (lower c)) = true).
Proof.
  set (lower_map := Runtime.build_lower_map strip lower opts).
  assert (Hexact : forall c',
             Runtime.exact_candidate strip lower lower_map raw_answer = Some c' ->
             c' ∈ opts /\ strip (lower c') = strip (lower raw_answer)).
  { intros c' Hc'. apply rt_dict_get_entry in Hc' as [Hk Ho]. auto. }
  assert (Hsyn : forall c',
             Runtime.synonym_candidate strip lower lower_map raw_answer = Some c' ->
                            c' ∈ opts
                            /\ exists syns,
                                 synonyms_of (strip (lower raw_answer)) synonym_map = Some syns
                                 /\ strip (lower c') ∈ syns).
  { unfold Runtime.synonym_candidate. intros c'.
    destruct (synonyms_of _ synonym_map) as [syns | ]; [ | discriminate].
    intros Hhit. apply rt_first_synonym_hit_entry in Hhit as [Hs Ho]. eauto. }
  assert (Hsub : forall c',
             Runtime.substring_candidate lower lower_map raw_answer = Some c' ->
                            c' ∈ opts
                            /\ (contains (strip (lower c')) (lower raw_answer) = true
                                \/ contains (lower raw_answer) (strip (lower c')) = true)).
  { unfold Runtime.substring_candidate. intros c'.
    destruct (List.find _ lower_map) as [[k v] | ] eqn:Hfind; [ | discriminate].
    intros [= <-]. apply find_member in Hfind as [Hin Htest].
    pose proof (rt_lower_map_entries strip lower opts) as Hall.
    rewrite Forall_forall in Hall.
    destruct (Hall _ Hin) as [Hk Ho]. cbn [fst snd] in Hk, Ho. subst k.
    split; [exact Ho | ]. apply orb_true_iff in Htest. exact Htest. }
  unfold Runtime.resolve_candidate. fold lower_map.
  destruct (Runtime.exact_candidate strip lower _ raw_answer) as [c1 | ] eqn:H1;
    destruct (Runtime.synonym_candidate strip lower _ raw_answer) as [c2 | ] eqn:H2;
    destruct (Runtime.substring_candidate lower _ raw_answer) as [c3 | ] eqn:H3;
    cbn [truthy_opt];
    repeat match goal with
           | |- context [if ?b then _ else _] => destruct b; cbn [truthy_opt]
           end;
    intros [= <-];
    first [ destruct (Hexact _ eq_refl) as [Ho Hk]; split; [exact Ho | left; exact Hk]
          | destruct (Hsyn _ eq_refl) as [Ho Hk]; split; [exact Ho | right; left; exact Hk]
          | destruct (Hsub _ eq_refl) as [Ho Hk]; split; [exact Ho | right; right; exact Hk] ].
Qed.

(** C9: when the request has a non-empty option list and the parsed answer,
    trimmed as the predictor trims it, is a member of it as it stands, the
    option matcher stage hands back that answer and the confidence it was
    given; the response carries the parsed answer and the clamped parsed
    confidence, nothing else. *)
Theorem verbatim_option_unchanged (strip lower : string -> string)
    (float_of_str : string -> option pyfloat)
    (request : AIRequest) (opts : list string) (fields : list (string * json))
    (parsed : string) :
  options request = Some opts ->
  opts <> [] ->
  assoc "answer" fields = Some (JStr parsed) ->
  strip parsed ∈ opts ->
  Runtime._is_forbidden_answer strip lower (strip parsed) = false ->
  text_like (default JNull (assoc "reasoning" fields)) ->
  text_like (default JNull (assoc "intent" fields)) ->
  (forall intent conf,
     Runtime.option_matcher_stage strip lower request intent (strip parsed) conf
     = (strip parsed, conf))
  /\ exists response,
       Runtime.postprocess strip lower float_of_str request (JObj fields) = Ok response
       /\ answer response = strip parsed
       /\ confidence response
          = clamp (match py_float float_of_str
                           (default (JFloat f075) (assoc "confidence" fields)) with
                   | Ok f => f
                   | Raise _ => f075
                   end).
Proof.
  intros Hopts Hne Hfield Hmember Hallowed Hreason Hintent.
  assert (Hstage : forall intent conf,
             Runtime.option_matcher_stage strip lower request intent (strip parsed) conf
             = (strip parsed, conf)).
  { intros intent conf. unfold Runtime.option_matcher_stage, supplied_options.
    rewrite Hopts. destruct opts as [ | first rest]; [congruence | ].
    apply str_in_member in Hmember. rewrite Hmember. reflexivity. }
  split; [exact Hstage | ].
  destruct (rt_or_empty_strip_text strip _ Hreason) as (raw_reason & Hr).
  destruct (rt_normalize_raw_intent_text strip lower _ (question request) Hintent)
    as (i & Hi).
  unfold Runtime.postprocess, py_get. rewrite Hfield. cbn [from_option id].
  rewrite bind_Ok, rt_or_empty_strip_str, !bind_Ok, Hr, !bind_Ok, Hi, bind_Ok.
  rewrite Hallowed, Hstage.
  eexists. split; [reflexivity | ]. split; reflexivity.
Qed.

(** ** The statements at the ASCII methods, on concrete text *)

Lemma backslash_free_flagged_iff_blank_witness :
  Runtime._is_forbidden_answer strip lower " I don't know, not sure - N/A " = false
  /\ Runtime._is_forbidden_answer strip lower "   " = true.
Proof.
  split.
  - rewrite (backslash_free_flagged_iff_blank strip lower " I don't know, not sure - N/A ");
      vm_compute; reflexivity.
  - rewrite (backslash_free_flagged_iff_blank strip lower "   "); vm_compute; reflexivity.
Defined.

Lemma repair_answer_options_witness :
  ["Decline to answer"; "Male"; " prefer NOT to say "] <> []
  /\ Runtime._repair_answer strip lower "Gender?"
       (Some ["Decline to answer"; "Male"; " prefer NOT to say "]) "eeo.gender"
     = " prefer NOT to say ".
Proof.
  assert (Hne : ["Decline to answer"; "Male"; " prefer NOT to say "] <> [])
    by discriminate.
  split; [exact Hne | ].
  refine (proj1 (proj2 (proj2 (repair_answer_options strip lower "Gender?" _ "eeo.gender"
                                 Hne)))
                [] "Prefer not to say"
                ["Decline to answer"; "Decline to state"; "Prefer not to disclose"]
                ["Decline to answer"; "Male"] " prefer NOT to say " []
                eq_refl eq_refl _ _ _).
  - apply Forall_nil. exact I.
  - repeat (apply Forall_cons; split; [apply String.eqb_neq; vm_compute; reflexivity | ]).
    apply Forall_nil. exact I.
  - vm_compute. reflexivity.
Defined.

Lemma case_insensitive_option_match_witness :
  exists before after,
    Runtime.option_matcher strip lower "Authorized?" ["Yes"; "No"; "YES "] "unknown"
                           " yes" f070
    = ("YES ", f070)
    /\ ["Yes"; "No"; "YES "] = (before ++ "YES " :: after)%list.
Proof.
  destruct (case_insensitive_option_match strip lower "Authorized?"
              ["Yes"; "No"; "YES "] "unknown" " yes" f070 "Yes")
    as (c & before & after & Hmatch & Hsplit & _).
  - reflexivity.
  - apply list_elem_of_In. left. reflexivity.
  - vm_compute. reflexivity.
  - apply String.eqb_neq. vm_compute. reflexivity.
  - assert (Hc : c = "YES ").
    { assert (Hrun : Runtime.option_matcher strip lower "Authorized?"
                       ["Yes"; "No"; "YES "] "unknown" " yes" f070
                     = ("YES ", f070)) by (vm_compute; reflexivity).
      rewrite Hrun in Hmatch. symmetry. exact (f_equal fst Hmatch). }
    subst c. exists before, after. split; [exact Hmatch | exact Hsplit].
Defined.

Lemma resolve_candidate_justified_witness :
  "Man" ∈ ["Woman"; "Man"; "Decline to answer"]
  /\ exists syns, synonyms_of "male" synonym_map = Some syns /\ "man" ∈ syns.
Proof.
  destruct (resolve_candidate_justified strip lower ["Woman"; "Man"; "Decline to answer"]
              " Male " "Man") as [Hmember Hwhy].
  - vm_compute. reflexivity.
  - split; [exact Hmember | ].
    destruct Hwhy as [Hexact | [Hsyn | [Hsub | Hsub]]].
    + vm_compute in Hexact. discriminate Hexact.
    + exact Hsyn.
    + vm_compute in Hsub. discriminate Hsub.
    + vm_compute in Hsub. discriminate Hsub.
Defined.

Lemma verbatim_option_unchanged_witness :
  exists response,
    Runtime.postprocess strip lower (fun _ => None)
      {| question := "Are you authorized to work in the US?";
         options := Some ["Yes"; "No"]; fieldType := "radio"; userProfile := JObj [] |}
      (JObj [ ("answer", JStr " No "); ("confidence", JFloat (FNum 0.9));
              ("reasoning", JStr "Profile says so."); ("intent", JNull) ])
    = Ok response
    /\ answer response = "No"
    /\ confidence response = FNum 0.9.
Proof.
  destruct (verbatim_option_unchanged strip lower (fun _ => None)
              {| question := "Are you authorized to work in the US?";
                 options := Some ["Yes"; "No"]; fieldType := "radio";
                 userProfile := JObj [] |}
              ["Yes"; "No"]
              [ ("answer", JStr " No "); ("confidence", JFloat (FNum 0.9));
                ("reasoning", JStr "Profile says so."); ("intent", JNull) ]
              " No ")
    as (_ & response & Hpost & Hanswer & Hconf).
  - reflexivity.
  - discriminate.
  - reflexivity.
  - apply str_in_member. vm_compute. reflexivity.
  - vm_compute. reflexivity.
  - right. eexists. reflexivity.
  - left. reflexivity.
  - exists response. split; [exact Hpost | ]. split; [exact Hanswer | ].
    rewrite Hconf. vm_compute. reflexivity.
Defined.

(** ** Text outside the ASCII range

    [Runtime.str_strip] trims the no-break space as [str.strip] does. *)

Example str_strip_trims_wide_whitespace :
  Runtime.str_strip (Runtime.nbsp +:+ " Yes " +:+ Runtime.utf8 [226; 128; 137]) = "Yes"
  /\ Runtime.str_strip ("a" +:+ Runtime.nbsp +:+ "b") = "a" +:+ Runtime.nbsp +:+ "b"
  /\ Runtime.str_strip (Runtime.nbsp +:+ Runtime.utf8 [227; 128; 128]) = "".
Proof. repeat split; vm_compute; reflexivity. Qed.

(** An answer that is a no-break space is blank, hence flagged. *)
Example no_break_space_is_flagged :
  Runtime._is_forbidden_answer Runtime.str_strip lower Runtime.nbsp = true.
Proof. vm_compute. reflexivity. Qed.

(** An option padded with a no-break space matches its preference, and is
    returned with its padding. *)
Example repair_matches_padded_option :
  Runtime._repair_answer Runtime.str_strip lower "Gender?"
    (Some ["Yes"; Runtime.nbsp +:+ "Prefer not to say"]) "eeo.gender"
  = Runtime.nbsp +:+ "Prefer not to say".
Proof. vm_compute. reflexivity. Qed.

(** A reply that spells an option with its no-break space is trimmed before
    it is compared: it is no longer a member of the list, and the matcher
    returns the last option with the same normalised text. *)
Example padded_reply_is_matched_not_kept :
  exists response,
    Runtime.postprocess Runtime.str_strip lower no_float
      {| question := "Are you authorized to work in the US?";
         options := Some ["Yes" +:+ Runtime.nbsp; "YES"]; fieldType := "radio";
         userProfile := JObj [] |}
      (JObj [ ("answer", JStr ("Yes" +:+ Runtime.nbsp));
              ("confidence", JFloat (FNum 0.9)) ])
    = Ok response
    /\ answer response = "YES".
Proof. eexists. split; vm_compute; reflexivity. Qed.

Example last_of_options_that_normalise_alike :
  Runtime.option_matcher Runtime.str_strip lower "Authorized?"
    ["yes"; "YES" +:+ Runtime.nbsp] "unknown" "Yes" f070
  = ("YES" +:+ Runtime.nbsp, f070).
Proof. vm_compute. reflexivity. Qed.
